(** * Coordinate normalisation and CSV export of the literature-review collector

    A shallow embedding of [src/utils/cleaners.ts]: [parseCoordinates]
    (coordinate strings to one number) and [exportToCSV] (records to CSV
    text), together with the JavaScript built-ins they call. *)

From Stdlib Require Import ZArith Lia Bool List.
From Stdlib Require Import Ascii String DecimalString DecimalN.
From Stdlib Require Import Floats.SpecFloat.
From Stdlib Require Import PrimFloat.
From Stdlib Require FloatOps.
From stdpp Require Import base strings gmap.

Local Open Scope Z_scope.

(** ** JavaScript numbers

    A JavaScript Number is an IEEE 754 binary64 value.  [spec_float] at
    precision 53 and maximal exponent 1024 is that format, with all the
    NaNs identified, which no JavaScript program can tell apart. *)

Module Num.

Definition number : Type := spec_float.

Definition prec : Z := 53.
Definition emax : Z := 1024.

Definition NaN : number := S754_nan.
Definition zero : number := S754_zero false.

(** [a + b] and [a / b] on Numbers. *)
Definition add (a b : number) : number := SFadd prec emax a b.
Definition div (a b : number) : number := SFdiv prec emax a b.

(** The global [isNaN], on a value that is already a Number. *)
Definition isNaN (x : number) : bool :=
  match x with S754_nan => true | _ => false end.

(** The Number nearest to [m * 10 ^ e] for [0 <= m], ties to even, with
    the sign [neg]: the rounding JavaScript applies to a decimal literal.
    A zero keeps the sign of the literal. *)
Definition of_decimal (neg : bool) (m e : Z) : number :=
  match m with
  | Z0 => S754_zero neg
  | Zpos p =>
      match e with
      | Zneg k =>
          let '(q, e', l) := SFdiv_core_binary prec emax (Zpos p) 0 (10 ^ Zpos k) 0 in
          binary_round_aux prec emax neg q e' l
      | _ => binary_round prec emax neg (p * Z.to_pos (10 ^ e)) 0
      end
  | Zneg _ => S754_nan
  end.

(** A non-negative integer as a Number (an array length, say). *)
Definition of_Z (n : Z) : number := of_decimal false n 0.

End Num.

Export Num(number).

(** ** JavaScript strings

    A string is a sequence of code units.  [ascii] models the units below
    256; every function of [cleaners.ts] only compares units with ASCII
    characters, so a wider unit behaves like any other unit that is not
    one of them. *)

Module JsString.

Definition is_digit (c : ascii) : bool :=
  ((48 <=? N_of_ascii c) && (N_of_ascii c <=? 57))%N.

(** White space and line terminators below 256, as [trim] sees them. *)
Definition is_space (c : ascii) : bool :=
  let n := N_of_ascii c in
  ((9 <=? n) && (n <=? 13) || (n =? 32) || (n =? 160))%N.

(** [s.includes(c)] for a one-character search string. *)
Fixpoint includes (c : ascii) (s : string) : bool :=
  match s with
  | EmptyString => false
  | String a r => Ascii.eqb a c || includes c r
  end.

(** [s.startsWith(c)] for a one-character search string. *)
Definition startsWith (c : ascii) (s : string) : bool :=
  match s with
  | EmptyString => false
  | String a _ => Ascii.eqb a c
  end.

(** [s.split(c)]: the pieces between the occurrences of [c]; never empty. *)
Fixpoint split (c : ascii) (s : string) : list string :=
  match s with
  | EmptyString => [EmptyString]
  | String a r =>
      if Ascii.eqb a c then EmptyString :: split c r
      else match split c r with
           | h :: t => String a h :: t
           | [] => [String a EmptyString]
           end
  end.

(** [l.join(sep)]. *)
Fixpoint join (sep : string) (l : list string) : string :=
  match l with
  | [] => EmptyString
  | [x] => x
  | x :: r => x +:+ sep +:+ join sep r
  end.

(** [s.replace(/re/g, by)] for a regular expression [re] that matches
    exactly one code unit, those satisfying [p]. *)
Fixpoint replace_all (p : ascii -> bool) (by_ : string) (s : string) : string :=
  match s with
  | EmptyString => EmptyString
  | String a r =>
      if p a then by_ +:+ replace_all p by_ r else String a (replace_all p by_ r)
  end.

Fixpoint trimStart (s : string) : string :=
  match s with
  | EmptyString => EmptyString
  | String a r => if is_space a then trimStart r else s
  end.

Fixpoint trimEnd (s : string) : string :=
  match s with
  | EmptyString => EmptyString
  | String a r =>
      match trimEnd r with
      | EmptyString => if is_space a then EmptyString else String a EmptyString
      | r' => String a r'
      end
  end.

Definition trim (s : string) : string := trimEnd (trimStart s).

(** The longest prefix of decimal digits, and what follows it. *)
Fixpoint span_digits (s : string) : string * string :=
  match s with
  | EmptyString => (EmptyString, EmptyString)
  | String a r =>
      if is_digit a then let '(d, t) := span_digits r in (String a d, t)
      else (EmptyString, s)
  end.

(** The mathematical value of a run of decimal digits, after [acc]. *)
Fixpoint digits_value (acc : Z) (s : string) : Z :=
  match s with
  | EmptyString => acc
  | String a r => digits_value (10 * acc + (Z.of_N (N_of_ascii a) - 48)) r
  end.

(** The decimal digits of a non-negative integer, ["0"] for zero. *)
Definition decimal_digits (n : Z) : string :=
  NilZero.string_of_uint (N.to_uint (Z.to_N n)).

Fixpoint zeros (n : nat) : string :=
  match n with
  | O => EmptyString
  | S k => String "0" (zeros k)
  end.

(** [s.substring(0, n)] and [s.substring(n)]. *)
Fixpoint take (n : nat) (s : string) : string :=
  match n, s with
  | S k, String a r => String a (take k r)
  | _, _ => EmptyString
  end.

Fixpoint drop (n : nat) (s : string) : string :=
  match n, s with
  | S k, String _ r => drop k r
  | _, _ => s
  end.

End JsString.

(** ** Completions

    A JavaScript computation either completes normally with a value or
    throws.  Only the built-ins that can throw return a [completion];
    [try_catch] is the [try { ... } catch (e) { ... }] statement. *)

Inductive completion (A : Type) : Type :=
  | Normal (a : A)
  | Throw.

Arguments Normal {A} a.
Arguments Throw {A}.

Definition bind {A B : Type} (c : completion A) (k : A -> completion B) : completion B :=
  match c with
  | Normal a => k a
  | Throw => Throw
  end.

Definition try_catch {A : Type} (body handler : completion A) : completion A :=
  match body with
  | Normal a => Normal a
  | Throw => handler
  end.

Notation "'let*' x ':=' c 'in' k" := (bind c (fun x => k))
  (at level 10, x name, c at level 100, k at level 200).

(** ** Built-in functions on numbers and strings *)

Module Js.

Import JsString.

(** The exponent part of a decimal literal at the head of [s]: [e] or [E],
    an optional sign and at least one digit; [0] when there is none. *)
Definition exponent_part (s : string) : Z :=
  match s with
  | String c r =>
      if Ascii.eqb c "e" || Ascii.eqb c "E" then
        let '(eneg, r') :=
          match r with
          | String d t =>
              if Ascii.eqb d "-" then (true, t)
              else if Ascii.eqb d "+" then (false, t)
              else (false, r)
          | EmptyString => (false, r)
          end in
        match fst (span_digits r') with
        | EmptyString => 0
        | ds => if eneg then - digits_value 0 ds else digits_value 0 ds
        end
      else 0
  | EmptyString => 0
  end.

(** The Number of the longest prefix of [s] that is an unsigned decimal
    literal: [Infinity], or digits with an optional fraction and exponent,
    at least one digit before or after the point; [NaN] when no prefix is
    one.  [neg] is the sign read before it. *)
Definition unsigned_literal (neg : bool) (s : string) : number :=
  if String.prefix "Infinity" s then S754_infinity neg
  else
    let '(ip, r1) := span_digits s in
    let '(fp, r2) :=
      match r1 with
      | String c r => if Ascii.eqb c "." then span_digits r else (EmptyString, r1)
      | EmptyString => (EmptyString, r1)
      end in
    match ip +:+ fp with
    | EmptyString => Num.NaN
    | ds => Num.of_decimal neg (digits_value 0 ds)
              (exponent_part r2 - Z.of_nat (String.length fp))
    end.

(** The global [parseFloat] on a string: skip leading white space, read
    an optional sign, and take the longest prefix that is a decimal
    literal. *)
Definition parseFloat (input : string) : number :=
  match trimStart input with
  | String c r =>
      if Ascii.eqb c "-" then unsigned_literal true r
      else if Ascii.eqb c "+" then unsigned_literal false r
      else unsigned_literal false (String c r)
  | EmptyString => Num.NaN
  end.

(** A positive finite Number [m * 2 ^ e] as a fraction of integers. *)
Definition fraction (m : positive) (e : Z) : Z * Z :=
  match e with
  | Zneg k => (Zpos m, 2 ^ Zpos k)
  | _ => (Zpos m * 2 ^ e, 1)
  end.

(** The fraction [ab] times [10 ^ j]. *)
Definition scale10 (ab : Z * Z) (j : Z) : Z * Z :=
  let '(a, b) := ab in
  match j with
  | Zneg k => (a, b * 10 ^ Zpos k)
  | _ => (a * 10 ^ j, b)
  end.

(** The [p] with [10 ^ (p - 1) <= a / b < 10 ^ p]. *)
Definition magnitude10 (ab : Z * Z) : Z :=
  let p0 := Z.of_nat (String.length (decimal_digits (fst ab)))
            - Z.of_nat (String.length (decimal_digits (snd ab))) in
  let '(a', b') := scale10 ab (- p0) in
  if a' <? b' then p0 else p0 + 1.

(** A decimal [s * 10 ^ (p - k)] with at most [k] digits that rounds to
    [x], nearest to [x] when there are two, if any. *)
Definition shortest_at (x : number) (ab : Z * Z) (p k : Z) : option Z :=
  let '(a', b') := scale10 ab (k - p) in
  let lo := a' / b' in
  let hi := lo + 1 in
  let ok s := SFeqb (Num.of_decimal false s (p - k)) x in
  match ok lo, ok hi with
  | true, true =>
      match 2 * a' ?= (2 * lo + 1) * b' with
      | Lt => Some lo
      | Eq => Some (if Z.even lo then lo else hi)
      | Gt => Some hi
      end
  | true, false => Some lo
  | false, true => Some hi
  | false, false => None
  end.

(** The fewest digits [s] and the exponent [n] for which [s * 10 ^ (n - k)],
    with [k] the number of digits of [s], is the Number [x]. *)
Fixpoint shortest_from (fuel : nat) (x : number) (ab : Z * Z) (p k : Z) : string * Z :=
  match fuel with
  | O => (decimal_digits (fst (scale10 ab (k - p)) / snd (scale10 ab (k - p))), p)
  | S fuel' =>
      match shortest_at x ab p k with
      | Some s => if s =? 10 ^ k then (String "1" EmptyString, p + 1) else (decimal_digits s, p)
      | None => shortest_from fuel' x ab p (k + 1)
      end
  end.

(** Number::toString in radix 10, for a positive finite Number. *)
Definition positive_to_string (m : positive) (e : Z) : string :=
  let ab := fraction m e in
  let '(ds, n) := shortest_from 17 (S754_finite false m e) ab (magnitude10 ab) 1 in
  let k := Z.of_nat (String.length ds) in
  if (-5 <=? n) && (n <=? 21) then
    if k <=? n then ds +:+ zeros (Z.to_nat (n - k))
    else if 0 <? n then take (Z.to_nat n) ds +:+ String "." (drop (Z.to_nat n) ds)
    else String "0" (String "." (zeros (Z.to_nat (- n)) +:+ ds))
  else
    let ex := n - 1 in
    let tail := String "e" (String (if ex <? 0 then "-"%char else "+"%char) (decimal_digits (Z.abs ex))) in
    if k =? 1 then ds +:+ tail
    else take 1 ds +:+ String "." (drop 1 ds +:+ tail).

(** Number::toString in radix 10, which is [String(x)] on a Number. *)
Definition number_to_string (x : number) : string :=
  match x with
  | S754_nan => "NaN"
  | S754_zero _ => "0"
  | S754_infinity s => if s then "-Infinity" else "Infinity"
  | S754_finite s m e =>
      if s then String "-" (positive_to_string m e) else positive_to_string m e
  end.

(** [x.toFixed(f)] for [0 <= f <= 100]: the integer nearest to
    [x * 10 ^ f], the larger one of two, written with [f] digits after
    the point; Number::toString from [10 ^ 21] on and on [NaN] and the
    infinities. *)
Definition toFixed_digits (x : number) (f : Z) : string :=
  match x with
  | S754_finite s m e =>
      let '(a, b) := fraction m e in
      let body :=
        if b * 10 ^ 21 <=? a then positive_to_string m e
        else
          let '(a', b') := scale10 (a, b) f in
          let ds := decimal_digits ((2 * a' + b') / (2 * b')) in
          if f =? 0 then ds
          else
            let k := Z.of_nat (String.length ds) in
            let ds' := if k <=? f then zeros (Z.to_nat (f + 1 - k)) +:+ ds else ds in
            let cut := (String.length ds' - Z.to_nat f)%nat in
            take cut ds' +:+ String "." (drop cut ds') in
      if s then String "-" body else body
  | S754_zero _ =>
      if f =? 0 then "0" else String "0" (String "." (zeros (Z.to_nat f)))
  | _ => number_to_string x
  end.

(** [Number.prototype.toFixed]: a [RangeError] outside [0 .. 100]. *)
Definition toFixed (x : number) (fractionDigits : Z) : completion string :=
  if (fractionDigits <? 0) || (100 <? fractionDigits) then Throw
  else Normal (toFixed_digits x fractionDigits).

End Js.

(** ** Values

    The values a coordinate or a record field can hold: [types.ts] declares
    strings and numbers, a missing property reads as [undefined], and the
    extraction service may answer [null]. *)

Inductive jsval : Type :=
  | JUndefined
  | JNull
  | JNum (x : number)
  | JStr (s : string).

(** [String(v)]. *)
Definition String_ (v : jsval) : string :=
  match v with
  | JUndefined => "undefined"
  | JNull => "null"
  | JNum x => Js.number_to_string x
  | JStr s => s
  end.

(** ** [parseCoordinates] *)

Import JsString Js.

(** The class [[^\d.\-,]]: every code unit that is not a digit, a point,
    a hyphen or a comma. *)
Definition not_coordinate_char (c : ascii) : bool :=
  negb (is_digit c || Ascii.eqb c "." || Ascii.eqb c "-" || Ascii.eqb c ",").

(** [value.toString().replace(/[^\d.\-,]/g, '').trim()] *)
Definition cleanVal (value : string) : string :=
  trim (replace_all not_coordinate_char EmptyString value).

(** [s.split(sep).map(v => parseFloat(v)).filter(n => !isNaN(n))] *)
Definition parts (sep : ascii) (s : string) : list number :=
  List.filter (fun n => negb (Num.isNaN n)) (List.map (fun v => parseFloat v) (split sep s)).

(** [parts.reduce((a, b) => a + b, 0)] *)
Definition sum (l : list number) : number :=
  fold_left (fun a b => Num.add a b) l Num.zero.

(** The last statements of the [try] block: the whole text as one float. *)
Definition fallback (clean : string) : completion (option number) :=
  let num := parseFloat clean in
  Normal (if Num.isNaN num then None else Some num).

(** The [try] block, on the cleaned text. *)
Definition try_block (clean : string) : completion (option number) :=
  if includes "," clean then
    let ps := parts "," clean in
    match ps with
    | [] => Normal None
    | _ =>
        let* text := toFixed (Num.div (sum ps) (Num.of_Z (Z.of_nat (length ps)))) 6 in
        Normal (Some (parseFloat text))
    end
  else if includes "-" clean && negb (startsWith "-" clean) then
    match parts "-" clean with
    | [p0; p1] =>
        let* text := toFixed (Num.div (Num.add p0 p1) (Num.of_Z 2)) 6 in
        Normal (Some (parseFloat text))
    | _ => fallback clean
    end
  else fallback clean.

Definition parseCoordinates (value : jsval) : completion (option number) :=
  match value with
  | JUndefined | JNull | JStr EmptyString => Normal None
  | JNum x => Normal (Some x)
  | JStr s => try_catch (try_block (cleanVal s)) (Normal None)
  end.

(** ** [exportToCSV] *)

(** A record is an object: a finite map from property names to values. *)
Abbreviation record := (gmap string jsval).

(** [row[fieldName]]: a property the object lacks reads as [undefined]. *)
Definition get (row : record) (fieldName : string) : jsval :=
  default JUndefined (row !! fieldName).

Definition headers : list string :=
  [ "Year"; "Authors"; "Title"; "Journal"; "Open_Access";
    "Scale"; "Continent"; "Country"; "Longitude"; "Latitude";
    "Sampling_Year"; "Sampling_Design"; "Sampling_Depth"; "Soil_Status"; "LULC";
    "Spectrometer"; "Spectral_Region"; "Spectral_Range_Val"; "Spectral_Library";
    "Spectral_Preprocessing"; "Transfer_Learning";
    "Target_Property"; "No_Samples_Cal"; "No_Samples_Val"; "Split_Method";
    "Variable_Selection"; "Calibration_Model"; "Auxiliary_Predictors";
    "Validation_Type"; "R2"; "RMSE"; "RPIQ"; "r" ].

Definition comma : ascii := ",".
Definition dquote : ascii := "034".
Definition LF : ascii := "010".
Definition CR : ascii := "013".

(** The body of the inner arrow function: one cell of the table. *)
Definition cell (val : jsval) : string :=
  match val with
  | JUndefined | JNull => EmptyString
  | _ =>
      let stringVal := String_ val in
      if includes comma stringVal || includes dquote stringVal then
        String dquote
          (replace_all (Ascii.eqb dquote) (String dquote (String dquote EmptyString)) stringVal
           +:+ String dquote EmptyString)
      else stringVal
  end.

Definition csvContent (data : list record) : string :=
  join (String LF EmptyString)
    (join (String comma EmptyString) headers
     :: List.map (fun row => join (String comma EmptyString)
                               (List.map (fun fieldName => cell (get row fieldName)) headers))
          data).

(** What the page hands to the browser: the [Blob] behind an object URL
    and the anchor that is clicked to download it. *)
Record download : Type := Download {
  download_name : string;
  download_type : string;
  download_content : string
}.

(** [exportToCSV] acts on the browser only through the downloads it
    starts; [None] for [data] is an [undefined] or [null] argument. *)
Definition exportToCSV (data : option (list record)) (filename : string)
    (started : list download) : list download :=
  match data with
  | None | Some [] => started
  | Some rows =>
      started ++ [Download filename "text/csv;charset=utf-8;" (csvContent rows)]
  end.

(** ** The properties' vocabulary *)

(** The Number a binary64 literal denotes. *)
Definition lit (f : float) : number := FloatOps.Prim2SF f.

Arguments lit f%_float.

(** The sign bit of a Number. *)
Definition signbit (x : number) : bool :=
  match x with
  | S754_zero s | S754_infinity s | S754_finite s _ _ => s
  | S754_nan => false
  end.

(** The code units cleaning keeps. *)
Definition coordinate_char (c : ascii) : bool :=
  is_digit c || Ascii.eqb c "." || Ascii.eqb c "-" || Ascii.eqb c ",".

(** A point, a hyphen or a comma: what cleaning keeps besides digits. *)
Definition punctuation (c : ascii) : bool :=
  coordinate_char c && negb (is_digit c).

(** The code units of an unsigned number without exponent. *)
Definition digit_or_point (c : ascii) : bool := is_digit c || Ascii.eqb c ".".

(** Every code unit of [s] satisfies [p]. *)
Fixpoint all_chars (p : ascii -> bool) (s : string) : bool :=
  match s with
  | EmptyString => true
  | String a r => p a && all_chars p r
  end.


(** A Number rounded to [6] decimal places: written with six digits after
    the point and read back. *)
Definition round6 (x : number) : number := parseFloat (toFixed_digits x 6).

(** The strings [parseCoordinates] hands to [parseFloat] while it looks
    for a number in the cleaned text. *)
Definition attempts (clean : string) : list string :=
  if includes "," clean then split "," clean
  else if includes "-" clean && negb (startsWith "-" clean)
       then split "-" clean ++ [clean]
       else [clean].

(** The string representation of a field, the empty string when absent. *)
Definition field_text (v : jsval) : string :=
  match v with
  | JUndefined | JNull => EmptyString
  | _ => String_ v
  end.

(** Every double quote written twice. *)
Fixpoint double_quotes (s : string) : string :=
  match s with
  | EmptyString => EmptyString
  | String a r =>
      if Ascii.eqb a dquote then String dquote (String dquote (double_quotes r))
      else String a (double_quotes r)
  end.

(** The escaping rule in the specification's words: a text with a comma or
    a double quote goes between double quotes with its own quotes
    doubled, any other text goes as it is. *)
Definition escaped (t : string) : string :=
  if includes comma t || includes dquote t
  then String dquote (double_quotes t +:+ String dquote EmptyString)
  else t.

(** The header line, written out. *)
Definition header_line : string :=
  "Year,Authors,Title,Journal,Open_Access,Scale,Continent,Country,Longitude,Latitude,Sampling_Year,Sampling_Design,Sampling_Depth,Soil_Status,LULC,Spectrometer,Spectral_Region,Spectral_Range_Val,Spectral_Library,Spectral_Preprocessing,Transfer_Learning,Target_Property,No_Samples_Cal,No_Samples_Val,Split_Method,Variable_Selection,Calibration_Model,Auxiliary_Predictors,Validation_Type,R2,RMSE,RPIQ,r".

(** The text before the first line feed. *)
Definition first_line (text : string) : string :=
  hd EmptyString (split LF text).

(** Two records agree on the columns of the schema. *)
Definition same_columns (r1 r2 : record) : Prop :=
  forall h, In h headers -> get r1 h = get r2 h.

(** The table a reader should find in the exported text: the header row,
    then for each record the texts of its fields in header order. *)
Definition table (data : list record) : list (list string) :=
  headers :: List.map (fun row => List.map (fun h => field_text (get row h)) headers) data.

(** One record whose title runs over two lines. *)
Definition two_line_title : list record :=
  [ {[ "Title" := JStr (String "a" (String LF (String "b" EmptyString))) ]} ].

(** A text that goes out unquoted although it holds a line break. *)
Definition bare_line_break (t : string) : bool :=
  (includes LF t || includes CR t) && negb (includes comma t || includes dquote t).

(** ** A reader for RFC 4180

    The reader the round-trip property is stated against.  Fields are
    separated by commas and records by line breaks (CR LF, or a lone LF or
    CR as readers commonly accept); a field that starts with a double
    quote runs to the matching quote, a doubled quote inside standing for
    one quote; a line break at the very end does not start a record.
    Text after a closing quote, a quote inside an unquoted field and an
    unterminated quoted field are malformed. *)

Module Rfc4180.

Inductive state : Type :=
  | RecordStart   (* nothing of the record read yet *)
  | FieldStart    (* just after a comma *)
  | Unquoted      (* inside an unquoted field *)
  | Quoted        (* inside a quoted field *)
  | QuoteSeen     (* after a quote inside a quoted field *)
  | CRSeen.       (* after a CR that ended a record *)

Definition snoc (field : string) (c : ascii) : string :=
  field +:+ String c EmptyString.

(** [field] is the text of the current field so far, [fields] the fields
    of the current record before it, [records] the finished records. *)
Fixpoint read (st : state) (field : string) (fields : list string)
    (records : list (list string)) (input : string) : option (list (list string)) :=
  match input with
  | EmptyString =>
      match st with
      | RecordStart | CRSeen => Some records
      | Quoted => None
      | FieldStart | Unquoted | QuoteSeen => Some (records ++ [fields ++ [field]])
      end
  | String c rest =>
      match st with
      | Quoted =>
          if Ascii.eqb c dquote then read QuoteSeen field fields records rest
          else read Quoted (snoc field c) fields records rest
      | QuoteSeen =>
          if Ascii.eqb c dquote then read Quoted (snoc field c) fields records rest
          else if Ascii.eqb c comma then
            read FieldStart EmptyString (fields ++ [field]) records rest
          else if Ascii.eqb c LF then
            read RecordStart EmptyString [] (records ++ [fields ++ [field]]) rest
          else if Ascii.eqb c CR then
            read CRSeen EmptyString [] (records ++ [fields ++ [field]]) rest
          else None
      | _ =>
          if Ascii.eqb c LF && match st with CRSeen => true | _ => false end then
            read RecordStart EmptyString [] records rest
          else if Ascii.eqb c comma then
            read FieldStart EmptyString (fields ++ [field]) records rest
          else if Ascii.eqb c LF then
            read RecordStart EmptyString [] (records ++ [fields ++ [field]]) rest
          else if Ascii.eqb c CR then
            read CRSeen EmptyString [] (records ++ [fields ++ [field]]) rest
          else if Ascii.eqb c dquote then
            match st with
            | Unquoted => None
            | _ => read Quoted EmptyString fields records rest
            end
          else read Unquoted (snoc field c) fields records rest
      end
  end.

Definition parse (text : string) : option (list (list string)) :=
  read RecordStart EmptyString [] [] text.

End Rfc4180.

(** ** The page: cleaning, display ([App.tsx]) *)

(** [types.ts]: a paper as the search returns it. *)
Inductive paper_status : Type := Pending | Processing | Done | Failed.

Record RawPaper : Type := {
  raw_id : string;
  raw_text : string;
  raw_status : paper_status
}.

(** A result of [parseCoordinates] stored as a property: a number, or
    [undefined]. *)
Definition to_value (r : option number) : jsval :=
  match r with
  | Some x => JNum x
  | None => JUndefined
  end.

(** [{ ...extractedData, Longitude: parseCoordinates(extractedData.Longitude),
       Latitude: parseCoordinates(extractedData.Latitude) }] *)
Definition cleanData (extractedData : record) : completion record :=
  let* longitude := parseCoordinates (get extractedData "Longitude") in
  let* latitude := parseCoordinates (get extractedData "Latitude") in
  Normal (<["Latitude" := to_value latitude]>
            (<["Longitude" := to_value longitude]> extractedData)).

(** [{ id: paper.id, rawText: paper.text, ...cleanData }]: the properties
    spread last win. *)
Definition finalPaper (paper : RawPaper) (extractedData : record) : completion record :=
  let* clean := cleanData extractedData in
  Normal (clean ∪ (<["rawText" := JStr (raw_text paper)]>
                     (<["id" := JStr (raw_id paper)]> ∅))).

(** ToBoolean: what a condition makes of a value. *)
Definition ToBoolean (v : jsval) : bool :=
  match v with
  | JUndefined | JNull => false
  | JNum (S754_zero _) | JNum S754_nan => false
  | JNum _ => true
  | JStr EmptyString => false
  | JStr _ => true
  end.

(** What the coordinates cell of the table shows: a text, or the [N/A]
    placeholder. *)
Inductive coordinates : Type :=
  | Shown (text : string)
  | NotAvailable.

(** [paper.Latitude && paper.Longitude
       ? `${paper.Latitude}, ${paper.Longitude}` : <span>N/A</span>] *)
Definition coordinates_cell (paper : record) : coordinates :=
  let latitude := get paper "Latitude" in
  let longitude := get paper "Longitude" in
  if ToBoolean (if ToBoolean latitude then longitude else latitude)
  then Shown (String_ latitude +:+ ", " +:+ String_ longitude)
  else NotAvailable.

(** ** The extraction schema ([geminiService.ts]) *)

Inductive SchemaType : Type := INTEGER | STRING | NUMBER.

Record Schema : Type := {
  schema_type : SchemaType;
  schema_enum : option (list string);
  schema_description : option string
}.

Definition plain (t : SchemaType) : Schema := Build_Schema t None None.
Definition one_of (values : list string) : Schema := Build_Schema STRING (Some values) None.
Definition described (t : SchemaType) (d : string) : Schema := Build_Schema t None (Some d).

(** [extractionSchema.properties], in the order they are written. *)
Definition extractionSchema_properties : list (string * Schema) :=
  [ ("Year", plain INTEGER);
    ("Authors", plain STRING);
    ("Title", plain STRING);
    ("Journal", plain STRING);
    ("Open_Access", one_of ["Yes"; "No"]);
    ("Scale", one_of ["Field"; "Regional"; "National"; "Continental"; "Global"]);
    ("Continent", plain STRING);
    ("Country", plain STRING);
    ("Longitude", described STRING "Raw longitude string, can be a range or list");
    ("Latitude", described STRING "Raw latitude string, can be a range or list");
    ("Sampling_Year", plain STRING);
    ("Sampling_Design", plain STRING);
    ("Sampling_Depth", plain STRING);
    ("Soil_Status", one_of ["Dry-ground"; "In-situ"; "On-the-go"]);
    ("LULC", plain STRING);
    ("Spectrometer", plain STRING);
    ("Spectral_Region", one_of ["VNIR"; "MIR"; "VNIR-MIR"]);
    ("Spectral_Range_Val", plain STRING);
    ("Spectral_Library", one_of ["Y"; "N"]);
    ("Spectral_Preprocessing", plain STRING);
    ("Transfer_Learning", plain STRING);
    ("Target_Property", plain STRING);
    ("No_Samples_Cal", plain INTEGER);
    ("No_Samples_Val", plain INTEGER);
    ("Split_Method", plain STRING);
    ("Variable_Selection", plain STRING);
    ("Calibration_Model", plain STRING);
    ("Auxiliary_Predictors", plain STRING);
    ("Validation_Type", plain STRING);
    ("R2", plain NUMBER);
    ("RMSE", plain NUMBER);
    ("RPIQ", plain NUMBER);
    ("r", plain NUMBER) ].

(** [extractionSchema.required] *)
Definition extractionSchema_required : list string := ["Title"; "Year"].

(** ** More vocabulary *)

(** The number of occurrences of a code unit. *)
Fixpoint count (c : ascii) (s : string) : nat :=
  match s with
  | EmptyString => O
  | String a r => if Ascii.eqb a c then S (count c r) else count c r
  end.

(** A code unit that is no comma, double quote or line break. *)
Definition plain_char (c : ascii) : bool :=
  negb (Ascii.eqb c comma || Ascii.eqb c dquote || Ascii.eqb c LF || Ascii.eqb c CR).

(** The text up to the closing quote of a quoted cell, a doubled quote
    read as one. *)
Fixpoint undouble (s : string) : string :=
  match s with
  | EmptyString => EmptyString
  | String a r =>
      if Ascii.eqb a dquote then
        match r with
        | String b r' =>
            if Ascii.eqb b dquote then String dquote (undouble r') else EmptyString
        | EmptyString => EmptyString
        end
      else String a (undouble r)
  end.

(** The text a cell stands for. *)
Definition unescaped (text : string) : string :=
  match text with
  | String c r => if Ascii.eqb c dquote then undouble r else text
  | EmptyString => EmptyString
  end.

(** ** The mean and the rounding, on their own *)

(** Parse each piece as a float and drop the pieces that do not parse. *)
Fixpoint parsed (pieces : list string) : list number :=
  match pieces with
  | [] => []
  | t :: rest =>
      match parseFloat t with
      | S754_nan => parsed rest
      | x => x :: parsed rest
      end
  end.










(** The whole text is one decimal number: an optional hyphen, then digits
    with at most one point among them, at least one digit. *)
Definition decimal_text (t : string) : bool :=
  let u := match t with
           | String c r => if Ascii.eqb c "-" then r else t
           | EmptyString => t
           end in
  let '(ip, r1) := span_digits u in
  match r1 with
  | EmptyString => negb (String.eqb ip EmptyString)
  | String c r =>
      Ascii.eqb c "." && all_chars is_digit r && negb (String.eqb (ip +:+ r) EmptyString)
  end.

(** * Facts about the built-ins *)

(** Case analysis on the eight bits of a code unit. *)
Ltac by_ascii_cases c :=
  destruct c as [[] [] [] [] [] [] [] []]; try reflexivity; try discriminate.

Section Strings.

Lemma append_nil (t : string) : EmptyString +:+ t = t.
Proof. reflexivity. Qed.

Lemma append_cons (a : ascii) (s t : string) : String a s +:+ t = String a (s +:+ t).
Proof. reflexivity. Qed.

Lemma append_empty_r (s : string) : s +:+ EmptyString = s.
Proof.
  induction s as [|a s IH]; [reflexivity|].
  now rewrite append_cons, IH.
Qed.

Lemma append_assoc (s t u : string) : (s +:+ t) +:+ u = s +:+ (t +:+ u).
Proof.
  induction s as [|a s IH]; [reflexivity|].
  now rewrite !append_cons, IH.
Qed.

Lemma all_chars_append (p : ascii -> bool) (s t : string) :
  all_chars p (s +:+ t) = all_chars p s && all_chars p t.
Proof.
  induction s as [|a s IH]; [reflexivity|].
  rewrite append_cons. simpl. now rewrite IH, andb_assoc.
Qed.

Lemma all_chars_weaken (p q : ascii -> bool) (s : string) :
  (forall c, p c = true -> q c = true) ->
  all_chars p s = true -> all_chars q s = true.
Proof.
  intros Hpq. induction s as [|a s IH]; simpl; [reflexivity|].
  intros [Ha Hs]%andb_prop. now rewrite (Hpq _ Ha), IH.
Qed.

(** What [replace(/re/g, '')] leaves matches the complement of [re]. *)
Lemma all_chars_replace_all (p : ascii -> bool) (s : string) :
  all_chars (fun c => negb (p c)) (replace_all p EmptyString s) = true.
Proof.
  induction s as [|a s IH]; simpl; [reflexivity|].
  destruct (p a) eqn:Ha; [rewrite append_nil; exact IH | simpl; now rewrite Ha, IH].
Qed.

Lemma all_chars_trimStart (p : ascii -> bool) (s : string) :
  all_chars p s = true -> all_chars p (trimStart s) = true.
Proof.
  induction s as [|a s IH]; simpl; [reflexivity|].
  intros H. destruct (is_space a); [|exact H].
  apply andb_prop in H. now apply IH.
Qed.

Lemma all_chars_trimEnd (p : ascii -> bool) (s : string) :
  all_chars p s = true -> all_chars p (trimEnd s) = true.
Proof.
  induction s as [|a s IH]; simpl; [reflexivity|].
  intros [Ha Hs]%andb_prop. specialize (IH Hs).
  destruct (trimEnd s) as [|b r].
  - destruct (is_space a); simpl; [reflexivity | now rewrite Ha].
  - cbn [all_chars] in *. now rewrite Ha, IH.
Qed.

(** Without a separator the text is the single piece. *)
Lemma split_without (c : ascii) (s : string) :
  includes c s = false -> split c s = [s].
Proof.
  induction s as [|a s IH]; simpl; [reflexivity|].
  intros [Ha Hs]%orb_false_elim. now rewrite Ha, (IH Hs).
Qed.

(** With a separator, the first piece is the text before its first
    occurrence and the other pieces are those of the text after it. *)
Lemma split_at_first (c : ascii) (s : string) :
  includes c s = true ->
  exists a r, s = a +:+ String c r /\ includes c a = false /\ split c s = a :: split c r.
Proof.
  induction s as [|x s IH]; simpl; [discriminate|].
  destruct (Ascii.eqb x c) eqn:Hx; simpl.
  - intros _. apply Ascii.eqb_eq in Hx as ->.
    now exists EmptyString, s.
  - intros (a & r & -> & Ha & Hsplit)%IH.
    exists (String x a), r. rewrite append_cons. simpl. now rewrite Hx, Ha, Hsplit.
Qed.

Lemma includes_all_chars (c : ascii) (p : ascii -> bool) (s : string) :
  p c = false -> all_chars p s = true -> includes c s = false.
Proof.
  intros Hc. induction s as [|a s IH]; simpl; [reflexivity|].
  intros [Ha Hs]%andb_prop. rewrite (IH Hs), orb_false_r.
  destruct (Ascii.eqb a c) eqn:E; [|reflexivity].
  apply Ascii.eqb_eq in E as ->. congruence.
Qed.

Lemma all_chars_without (c : ascii) (p : ascii -> bool) (s : string) :
  all_chars p s = true -> includes c s = false ->
  all_chars (fun x => p x && negb (Ascii.eqb x c)) s = true.
Proof.
  induction s as [|a s IH]; simpl; [reflexivity|].
  intros [Ha Hs]%andb_prop [Hac Hcs]%orb_false_elim.
  now rewrite Ha, Hac, IH.
Qed.

End Strings.

Section ParseFloat.

Lemma digit_or_point_char (c : ascii) :
  digit_or_point c = true ->
  is_space c = false /\ Ascii.eqb c "-" = false /\ Ascii.eqb c "+" = false
  /\ Ascii.eqb c "e" = false /\ Ascii.eqb c "E" = false /\ c <> "I"%char.
Proof.
  by_ascii_cases c; intros _; repeat split; discriminate.
Qed.

Lemma not_digit_point (c : ascii) :
  digit_or_point c = true -> is_digit c = false -> c = "."%char.
Proof. by_ascii_cases c. Qed.

Lemma prefix_Infinity_head (c : ascii) (r : string) :
  c <> "I"%char -> String.prefix "Infinity" (String c r) = false.
Proof.
  intros Hc.
  change (String.prefix "Infinity" (String c r))
    with (if ascii_dec "I" c then String.prefix "nfinity" r else false).
  destruct (ascii_dec "I" c) as [<-|_]; [contradiction | reflexivity].
Qed.

(** Digits are read up to the first code unit that is not one. *)
Lemma span_digits_append (a : string) (c : ascii) (r : string) :
  is_digit c = false ->
  span_digits (a +:+ String c r)
  = (fst (span_digits a), snd (span_digits a) +:+ String c r).
Proof.
  intros Hc. induction a as [|x a IH].
  - simpl. now rewrite Hc.
  - rewrite append_cons. simpl. destruct (is_digit x); [|reflexivity].
    rewrite IH. now destruct (span_digits a).
Qed.

(** What follows the digits is empty or starts with a code unit that is
    not a digit, and it is part of the text. *)
Lemma span_digits_rest (p : ascii -> bool) (a : string) :
  all_chars p a = true ->
  match snd (span_digits a) with
  | EmptyString => True
  | String x t => is_digit x = false /\ p x = true /\ all_chars p t = true
  end.
Proof.
  induction a as [|x a IH]; simpl; [trivial|].
  intros [Hx Ha]%andb_prop. destruct (is_digit x) eqn:Hd.
  - specialize (IH Ha). now destruct (span_digits a).
  - simpl. now rewrite Hd, Hx, Ha.
Qed.

Lemma exponent_part_point (r : string) : exponent_part (String "." r) = 0.
Proof. reflexivity. Qed.

Lemma exponent_part_hyphen (r : string) : exponent_part (String "-" r) = 0.
Proof. reflexivity. Qed.

(** An unsigned number made of digits and points is read the same when a
    hyphen and more text follow it. *)
Lemma unsigned_literal_before_hyphen (neg : bool) (a r : string) :
  all_chars digit_or_point a = true ->
  unsigned_literal neg (a +:+ String "-" r) = unsigned_literal neg a.
Proof.
  intros Ha. unfold unsigned_literal.
  assert (Hinf : forall t, String.prefix "Infinity" (a +:+ String "-" t) = false).
  { intros t. destruct a as [|c a]; [reflexivity|].
    rewrite append_cons. apply prefix_Infinity_head.
    simpl in Ha. apply andb_prop in Ha as [Hc _].
    now apply digit_or_point_char in Hc. }
  assert (Hinf' : String.prefix "Infinity" a = false).
  { destruct a as [|c a]; [reflexivity|].
    apply prefix_Infinity_head.
    simpl in Ha. apply andb_prop in Ha as [Hc _].
    now apply digit_or_point_char in Hc. }
  rewrite Hinf, Hinf'.
  rewrite span_digits_append by reflexivity.
  pose proof (span_digits_rest _ _ Ha) as Hrest.
  destruct (span_digits a) as [ip t]. simpl fst; simpl snd in *.
  destruct t as [|x t].
  - rewrite append_nil. cbn [Ascii.eqb Bool.eqb]. cbv iota.
    now rewrite exponent_part_hyphen.
  - destruct Hrest as (Hx & Hp & Ht).
    rewrite (not_digit_point _ Hp Hx), append_cons. cbn [Ascii.eqb Bool.eqb]. cbv iota.
    rewrite span_digits_append by reflexivity.
    pose proof (span_digits_rest _ _ Ht) as Hrest'.
    destruct (span_digits t) as [fp t']. simpl fst; simpl snd in *.
    destruct t' as [|y t'].
    + rewrite append_nil. now rewrite exponent_part_hyphen.
    + destruct Hrest' as (Hy & Hp' & _).
      rewrite (not_digit_point _ Hp' Hy), append_cons.
      now rewrite !exponent_part_point.
Qed.

(** [parseFloat] reads the number at the head of the text: what follows
    the first hyphen after it does not matter. *)
Lemma parseFloat_before_hyphen (a r : string) :
  a <> EmptyString -> all_chars digit_or_point a = true ->
  parseFloat (a +:+ String "-" r) = parseFloat a.
Proof.
  destruct a as [|c a]; [contradiction|]. intros _ Ha.
  pose proof Ha as Hc. simpl in Hc. apply andb_prop in Hc as [Hc _].
  apply digit_or_point_char in Hc as (Hsp & Hm & Hp & _).
  unfold parseFloat. rewrite append_cons. simpl trimStart. rewrite Hsp, Hm, Hp.
  rewrite <- append_cons. now apply unsigned_literal_before_hyphen.
Qed.

(** A decimal literal read after a minus sign is negative. *)
Lemma of_decimal_sign (neg : bool) (m e : Z) :
  Num.isNaN (Num.of_decimal neg m e) = false ->
  signbit (Num.of_decimal neg m e) = neg.
Proof.
  unfold Num.of_decimal.
  destruct m as [|p|p]; [reflexivity| |discriminate].
  assert (Haux : forall q e' l,
             Num.isNaN (binary_round_aux Num.prec Num.emax neg q e' l) = false ->
             signbit (binary_round_aux Num.prec Num.emax neg q e' l) = neg).
  { intros q e' l. unfold binary_round_aux.
    destruct (shr_fexp _ _ q e' l) as [mrs' e''].
    destruct (shr_fexp _ _ _ e'' loc_Exact) as [mrs'' e'''].
    destruct (shr_m mrs''); [reflexivity| |discriminate].
    now destruct (e''' <=? Num.emax - Num.prec). }
  destruct e as [|k|k].
  - unfold binary_round. destruct (shl_align _ _ _); apply Haux.
  - unfold binary_round. destruct (shl_align _ _ _); apply Haux.
  - destruct (SFdiv_core_binary _ _ _ _ _ _) as [[q e'] l]. apply Haux.
Qed.

Lemma unsigned_literal_sign (neg : bool) (s : string) :
  Num.isNaN (unsigned_literal neg s) = false ->
  signbit (unsigned_literal neg s) = neg.
Proof.
  unfold unsigned_literal.
  destruct (String.prefix "Infinity" s); [reflexivity|].
  destruct (span_digits s) as [ip r1].
  destruct (match r1 with
            | EmptyString => _
            | String c r => _
            end) as [fp r2].
  destruct (ip +:+ fp); [discriminate|].
  apply of_decimal_sign.
Qed.

Lemma parseFloat_minus (r : string) :
  parseFloat (String "-" r) = unsigned_literal true r.
Proof. reflexivity. Qed.

End ParseFloat.

(** * Rounding to six decimal places *)

Section Rounding.

Lemma digit_is_digit_or_point (c : ascii) : is_digit c = true -> digit_or_point c = true.
Proof. intros H. unfold digit_or_point. now rewrite H. Qed.

Lemma span_digits_all (s : string) :
  all_chars is_digit s = true -> span_digits s = (s, EmptyString).
Proof.
  induction s as [|a s IH]; simpl; [reflexivity|].
  intros [Ha Hs]%andb_prop. now rewrite Ha, (IH Hs).
Qed.

Lemma take_drop (n : nat) (s : string) : take n s +:+ drop n s = s.
Proof.
  revert s. induction n as [|n IH]; intros [|a s]; try reflexivity.
  simpl. now rewrite append_cons, IH.
Qed.

Lemma length_drop (n : nat) (s : string) :
  String.length (drop n s) = (String.length s - n)%nat.
Proof. revert s. induction n as [|n IH]; intros [|a s]; simpl; auto. Qed.

Lemma length_append (s t : string) :
  String.length (s +:+ t) = (String.length s + String.length t)%nat.
Proof.
  induction s as [|a s IH]; [reflexivity|].
  rewrite append_cons. simpl. now rewrite IH.
Qed.

Lemma length_zeros (n : nat) : String.length (zeros n) = n.
Proof. induction n as [|n IH]; simpl; auto. Qed.

Lemma all_chars_zeros (n : nat) : all_chars is_digit (zeros n) = true.
Proof. induction n as [|n IH]; simpl; auto. Qed.

Lemma digits_value_zeros (n : nat) (s : string) :
  digits_value 0 (zeros n +:+ s) = digits_value 0 s.
Proof. induction n as [|n IH]; [reflexivity | exact IH]. Qed.

Lemma all_chars_string_of_uint (d : Decimal.uint) :
  all_chars is_digit (NilEmpty.string_of_uint d) = true.
Proof. induction d; simpl; auto. Qed.

Lemma digits_value_of_uint_acc (d : Decimal.uint) (acc : positive) :
  digits_value (Zpos acc) (NilEmpty.string_of_uint d) = Zpos (Pos.of_uint_acc d acc).
Proof.
  revert acc. induction d as [|d IH|d IH|d IH|d IH|d IH|d IH|d IH|d IH|d IH|d IH];
    intros acc; cbn [NilEmpty.string_of_uint digits_value Pos.of_uint_acc];
    [reflexivity | rewrite <- IH; f_equal; vm_compute N_of_ascii; lia ..].
Qed.

Lemma digits_value_of_uint (d : Decimal.uint) :
  digits_value 0 (NilEmpty.string_of_uint d) = Z.of_N (Pos.of_uint d).
Proof.
  induction d as [|d IH|d IH|d IH|d IH|d IH|d IH|d IH|d IH|d IH|d IH];
    cbn [NilEmpty.string_of_uint digits_value Pos.of_uint];
    [reflexivity | exact IH | apply (digits_value_of_uint_acc d) ..].
Qed.

Lemma string_of_uint_spec (d : Decimal.uint) :
  all_chars is_digit (NilZero.string_of_uint d) = true
  /\ digits_value 0 (NilZero.string_of_uint d) = Z.of_N (Pos.of_uint d)
  /\ (1 <= String.length (NilZero.string_of_uint d))%nat.
Proof.
  destruct d as [|d|d|d|d|d|d|d|d|d|d];
    [repeat split; (reflexivity || (simpl; lia)) | ..];
    (split; [apply all_chars_string_of_uint
            | split; [apply digits_value_of_uint | simpl; lia]]).
Qed.

(** The decimal digits of a number are digits, at least one, and they
    denote the number. *)
Lemma decimal_digits_spec (n : Z) :
  0 <= n ->
  all_chars is_digit (decimal_digits n) = true
  /\ digits_value 0 (decimal_digits n) = n
  /\ (1 <= String.length (decimal_digits n))%nat.
Proof.
  intros Hn. unfold decimal_digits.
  destruct (string_of_uint_spec (N.to_uint (Z.to_N n))) as (Hall & Hval & Hlen).
  repeat split; [assumption | | assumption].
  rewrite Hval. change (Pos.of_uint (N.to_uint (Z.to_N n))) with (N.of_uint (N.to_uint (Z.to_N n))).
  rewrite DecimalN.Unsigned.of_to. now apply Z2N.id.
Qed.

(** A text of digits with a point before its last [k] digits is read as
    the number the digits denote, divided by [10 ^ k]. *)
Lemma unsigned_literal_fixed (neg : bool) (ds : string) (cut : nat) :
  all_chars is_digit ds = true ->
  (1 <= cut <= String.length ds)%nat ->
  unsigned_literal neg (take cut ds +:+ String "." (drop cut ds))
  = Num.of_decimal neg (digits_value 0 ds) (- Z.of_nat (String.length ds - cut)).
Proof.
  intros Hds Hcut.
  pose proof (take_drop cut ds) as Htd.
  assert (Htake : all_chars is_digit (take cut ds) = true /\ all_chars is_digit (drop cut ds) = true).
  { rewrite <- Htd, all_chars_append in Hds. now apply andb_prop in Hds. }
  destruct Htake as [Htake Hdrop].
  unfold unsigned_literal.
  assert (Hinf : String.prefix "Infinity" (take cut ds +:+ String "." (drop cut ds)) = false).
  { destruct cut as [|cut]; [lia|]. destruct ds as [|c ds]; [simpl in Hcut; lia|].
    cbn [take]. rewrite append_cons. apply prefix_Infinity_head.
    simpl in Hds. apply andb_prop in Hds as [Hc _].
    now apply digit_is_digit_or_point, digit_or_point_char in Hc. }
  rewrite Hinf, span_digits_append, (span_digits_all _ Htake) by reflexivity.
  cbn [fst snd]. rewrite append_nil. cbn [Ascii.eqb Bool.eqb]. cbv iota.
  rewrite (span_digits_all _ Hdrop), Htd, length_drop.
  destruct ds as [|c ds]; [simpl in Hcut; lia|].
  reflexivity.
Qed.

(** Writing a finite Number below [10 ^ 21] with six digits after the
    point and reading it back gives the Number nearest to the nearest
    multiple of [10 ^ -6], the larger in magnitude of two. *)
Lemma round6_finite (s : bool) (m : positive) (e : Z) :
  fst (fraction m e) < snd (fraction m e) * 10 ^ 21 ->
  round6 (S754_finite s m e)
  = Num.of_decimal s
      ((2 * (fst (fraction m e) * 10 ^ 6) + snd (fraction m e)) / (2 * snd (fraction m e)))
      (-6).
Proof.
  intros Hsmall. unfold round6, toFixed_digits.
  assert (Hpos : 0 < fst (fraction m e) /\ 0 < snd (fraction m e)).
  { assert (H2 : forall k, 0 < 2 ^ Zpos k) by (intros k; apply Z.pow_pos_nonneg; lia).
    unfold fraction. destruct e as [|k|k]; cbn [fst snd].
    - change (2 ^ 0) with 1. lia.
    - split; [apply Z.mul_pos_pos; [lia | apply H2] | lia].
    - split; [lia | apply H2]. }
  destruct (fraction m e) as [a b]. cbn [fst snd] in *.
  apply Z.leb_gt in Hsmall. rewrite Hsmall. cbn [scale10].
  set (n := (2 * (a * 10 ^ 6) + b) / (2 * b)).
  assert (Hn : 0 <= n) by (apply Z.div_pos; nia).
  destruct (decimal_digits_spec n Hn) as (Hdigits & Hvalue & Hlen).
  change (6 =? 0) with false. cbv iota.
  set (ds := if Z.of_nat (String.length (decimal_digits n)) <=? 6
             then zeros (Z.to_nat (6 + 1 - Z.of_nat (String.length (decimal_digits n))))
                  +:+ decimal_digits n
             else decimal_digits n).
  assert (Hds : all_chars is_digit ds = true /\ digits_value 0 ds = n
                /\ (7 <= String.length ds)%nat).
  { subst ds. destruct (Z.leb_spec (Z.of_nat (String.length (decimal_digits n))) 6).
    - rewrite all_chars_append, all_chars_zeros, digits_value_zeros, length_append, length_zeros.
      repeat split; [assumption | assumption | lia].
    - repeat split; [assumption | assumption | lia]. }
  destruct Hds as (Hall & Hval & Hlen7).
  set (cut := (String.length ds - Z.to_nat 6)%nat).
  assert (Hcut : (1 <= cut <= String.length ds)%nat) by (subst cut; lia).
  assert (Hread : forall neg,
             unsigned_literal neg (take cut ds +:+ String "." (drop cut ds))
             = Num.of_decimal neg n (-6)).
  { intros neg. rewrite (unsigned_literal_fixed neg ds cut Hall Hcut), Hval.
    f_equal. subst cut. lia. }
  destruct s.
  - now rewrite parseFloat_minus.
  - rewrite <- Hread. unfold parseFloat.
    destruct cut as [|cut]; [lia|]. destruct ds as [|c ds']; [simpl in Hlen7; lia|].
    cbn [take]. rewrite append_cons. cbn [trimStart].
    simpl in Hall. apply andb_prop in Hall as [Hc _].
    apply digit_is_digit_or_point, digit_or_point_char in Hc as (-> & -> & -> & _).
    reflexivity.
Qed.

(** Zeros and the values that are not finite: the sign of a zero is lost,
    the others come back as they are. *)
Lemma round6_special :
  (forall s, round6 (S754_zero s) = S754_zero false)
  /\ (forall s, round6 (S754_infinity s) = S754_infinity s)
  /\ round6 S754_nan = S754_nan.
Proof. repeat split; try intros []; reflexivity. Qed.

End Rounding.

(** * [parseCoordinates] *)

Section ParseCoordinates.

Lemma includes_append (c : ascii) (s t : string) :
  includes c (s +:+ t) = includes c s || includes c t.
Proof.
  induction s as [|a s IH]; [reflexivity|].
  rewrite append_cons. simpl. now rewrite IH, orb_assoc.
Qed.

(** Cleaning leaves digits, points, hyphens and commas only. *)
Lemma cleanVal_chars (s : string) : all_chars coordinate_char (cleanVal s) = true.
Proof.
  unfold cleanVal, trim.
  apply all_chars_trimEnd, all_chars_trimStart.
  eapply all_chars_weaken; [|apply all_chars_replace_all].
  intros c. unfold not_coordinate_char, coordinate_char.
  now rewrite negb_involutive.
Qed.

Lemma digit_or_point_piece (a : string) :
  all_chars coordinate_char a = true ->
  includes "," a = false -> includes "-" a = false ->
  all_chars digit_or_point a = true.
Proof.
  intros Ha Hcomma Hhyphen.
  pose proof (all_chars_without _ _ _ (all_chars_without _ _ _ Ha Hcomma) Hhyphen) as H.
  revert H. apply all_chars_weaken. intros c.
  unfold coordinate_char, digit_or_point.
  destruct (is_digit c), (Ascii.eqb c "."), (Ascii.eqb c "-"), (Ascii.eqb c ","); reflexivity || discriminate.
Qed.

(** The empty string needs no case of its own: the [try] block finds
    nothing in it either. *)
Lemma parseCoordinates_JStr (s : string) :
  parseCoordinates (JStr s) = try_catch (try_block (cleanVal s)) (Normal None).
Proof. destruct s; reflexivity. Qed.

Lemma toFixed_6 (x : number) : toFixed x 6 = Normal (toFixed_digits x 6).
Proof. reflexivity. Qed.

Lemma parts_nil (sep : ascii) (s : string) :
  (forall t, In t (split sep s) -> Num.isNaN (parseFloat t) = true) ->
  parts sep s = [].
Proof.
  unfold parts. induction (split sep s) as [|t l IH]; simpl; [reflexivity|].
  intros H. rewrite (H t) by now left. simpl. apply IH. intros u Hu. apply H. now right.
Qed.

(** In a text without commas that does not start with a hyphen, the whole
    text and its first hyphen-separated piece read as the same number. *)
Lemma parseFloat_first_piece (clean : string) :
  all_chars coordinate_char clean = true ->
  includes "," clean = false ->
  startsWith "-" clean = false ->
  parseFloat clean = parseFloat (hd EmptyString (split "-" clean)).
Proof.
  intros Hchars Hcomma Hstart.
  destruct (includes "-" clean) eqn:Hhyphen.
  - destruct (split_at_first _ _ Hhyphen) as (a & r & -> & Ha & ->). simpl hd.
    rewrite includes_append in Hcomma. apply orb_false_elim in Hcomma as [Hca _].
    rewrite all_chars_append in Hchars. apply andb_prop in Hchars as [Hchars _].
    apply parseFloat_before_hyphen.
    + intros ->. discriminate.
    + now apply digit_or_point_piece.
  - now rewrite (split_without _ _ Hhyphen).
Qed.

Lemma all_chars_both (p q : ascii -> bool) (s : string) :
  all_chars p s = true -> all_chars q s = true ->
  all_chars (fun c => p c && q c) s = true.
Proof.
  induction s as [|a s IH]; simpl; [reflexivity|].
  intros [Hp Hps]%andb_prop [Hq Hqs]%andb_prop. now rewrite Hp, Hq, IH.
Qed.

(** The pieces of a text are made of its code units. *)
Lemma split_all_chars (p : ascii -> bool) (c : ascii) (s : string) :
  all_chars p s = true -> forall t, In t (split c s) -> all_chars p t = true.
Proof.
  induction s as [|a s IH]; simpl.
  - intros _ t [<-|[]]. reflexivity.
  - intros [Ha Hs]%andb_prop t. specialize (IH Hs).
    destruct (Ascii.eqb a c).
    + intros [<-|Ht]; [reflexivity | now apply IH].
    + destruct (split c s) as [|h l].
      * intros [<-|[]]. simpl. now rewrite Ha.
      * intros [<-|Ht]; [|apply IH; now right].
        simpl. rewrite Ha. apply IH. now left.
Qed.

Lemma punctuation_char (c : ascii) :
  punctuation c = true ->
  is_space c = false /\ is_digit c = false /\ Ascii.eqb c "+" = false /\ c <> "I"%char.
Proof. by_ascii_cases c; intros _; repeat split; discriminate. Qed.

Lemma span_digits_none (t : string) :
  all_chars punctuation t = true -> span_digits t = (EmptyString, t).
Proof.
  destruct t as [|c r]; [reflexivity|]. simpl.
  intros [Hc _]%andb_prop. apply punctuation_char in Hc as (_ & -> & _). reflexivity.
Qed.

(** Without a digit there is no number to read. *)
Lemma unsigned_literal_no_digit (neg : bool) (t : string) :
  all_chars punctuation t = true -> unsigned_literal neg t = Num.NaN.
Proof.
  intros Ht. unfold unsigned_literal.
  assert (Hinf : String.prefix "Infinity" t = false).
  { destruct t as [|c r]; [reflexivity|]. apply prefix_Infinity_head.
    simpl in Ht. apply andb_prop in Ht as [Hc _]. now apply punctuation_char in Hc. }
  rewrite Hinf, (span_digits_none _ Ht).
  destruct t as [|c r]; [reflexivity|].
  simpl in Ht. apply andb_prop in Ht as [_ Hr].
  destruct (Ascii.eqb c "."); [now rewrite (span_digits_none _ Hr) | reflexivity].
Qed.

Lemma parseFloat_no_digit (t : string) :
  all_chars punctuation t = true -> Num.isNaN (parseFloat t) = true.
Proof.
  destruct t as [|c r]; [reflexivity|]. intros Ht.
  pose proof Ht as Hc. simpl in Hc. apply andb_prop in Hc as [Hc Hr].
  apply punctuation_char in Hc as (Hsp & _ & Hplus & _).
  unfold parseFloat. cbn [trimStart]. rewrite Hsp, Hplus.
  destruct (Ascii.eqb c "-"); now rewrite unsigned_literal_no_digit.
Qed.

(** When nothing [parseCoordinates] tries parses, the result is absent. *)
Lemma all_attempts_fail (s : string) :
  (forall t, In t (attempts (cleanVal s)) -> Num.isNaN (parseFloat t) = true) ->
  parseCoordinates (JStr s) = Normal None.
Proof.
  rewrite parseCoordinates_JStr. unfold attempts, try_block, fallback.
  destruct (includes "," (cleanVal s)).
  - intros H. now rewrite (parts_nil _ _ H).
  - destruct (includes "-" (cleanVal s) && negb (startsWith "-" (cleanVal s))).
    + intros H. rewrite parts_nil.
      * rewrite H; [reflexivity | apply in_or_app; right; now left].
      * intros t Ht. apply H, in_or_app. now left.
    + intros H. rewrite H; [reflexivity | now left].
Qed.

Lemma attempts_all_chars (p : ascii -> bool) (clean : string) :
  all_chars p clean = true -> forall t, In t (attempts clean) -> all_chars p t = true.
Proof.
  intros Hp t. unfold attempts.
  destruct (includes "," clean); [now apply split_all_chars|].
  destruct (includes "-" clean && negb (startsWith "-" clean)).
  - intros [Ht|[<-|[]]]%in_app_or; [now apply (split_all_chars p "-" clean) | assumption].
  - now intros [<-|[]].
Qed.

End ParseCoordinates.

Section Mean.



(** The pieces the code keeps are the pieces that parse. *)
Lemma parts_parsed (sep : ascii) (s : string) : parts sep s = parsed (split sep s).
Proof.
  unfold parts. induction (split sep s) as [|t l IH]; [reflexivity|].
  cbn [List.map List.filter parsed]. rewrite IH. now destruct (parseFloat t).
Qed.






End Mean.







(** C5: when the cleaned text starts with a hyphen and holds no comma, the
    range branch is skipped and the whole text is parsed as one number,
    which is negative: absent when that fails. *)
Theorem leading_hyphen_is_sign (s : string) :
  startsWith "-" (cleanVal s) = true ->
  includes "," (cleanVal s) = false ->
  let num := parseFloat (cleanVal s) in
  parseCoordinates (JStr s) = Normal (if Num.isNaN num then None else Some num)
  /\ (Num.isNaN num = false -> signbit num = true).
Proof.
  intros Hstart Hcomma num. split.
  - rewrite parseCoordinates_JStr. unfold try_block.
    rewrite Hcomma, Hstart, andb_false_r. reflexivity.
  - subst num. destruct (cleanVal s) as [|c r]; [discriminate|].
    simpl in Hstart. apply Ascii.eqb_eq in Hstart as ->.
    rewrite parseFloat_minus. apply unsigned_literal_sign.
Qed.

(** ["-10.5"] yields [-10.5]. *)
Lemma leading_hyphen_is_sign_witness :
  parseCoordinates (JStr "-10.5") = Normal (Some (lit (-10.5))).
Proof.
  destruct (leading_hyphen_is_sign "-10.5") as [H _];
    [reflexivity | reflexivity | rewrite H; vm_compute; reflexivity].
Defined.

(** C6 as the code has it: [parseCoordinates] completes normally on every
    input, with a number or nothing, and it never throws.  On a string
    the result is absent exactly when no number is found: with a comma,
    when no comma-separated piece parses; without one, when the whole
    cleaned text does not start with a number and is not a range of
    exactly two pieces that parse.  So it is when cleaning leaves no
    digit. *)
Theorem parseCoordinates_never_throws :
  (forall value, exists r : option number, parseCoordinates value = Normal r)
  /\ (forall s,
        parseCoordinates (JStr s) = Normal None
        <-> if includes "," (cleanVal s)
            then parsed (split "," (cleanVal s)) = []
            else Num.isNaN (parseFloat (cleanVal s)) = true
                 /\ ~ (includes "-" (cleanVal s) = true
                       /\ startsWith "-" (cleanVal s) = false
                       /\ length (parsed (split "-" (cleanVal s))) = 2%nat))
  /\ (forall s,
        all_chars (fun c => negb (is_digit c)) (cleanVal s) = true ->
        parseCoordinates (JStr s) = Normal None).
Proof.
  split; [|split].
  - intros [| |x|s]; try (eexists; reflexivity).
    rewrite parseCoordinates_JStr.
    destruct (try_block (cleanVal s)); eexists; reflexivity.
  - intros s. rewrite parseCoordinates_JStr. unfold try_block, fallback.
    rewrite !parts_parsed.
    destruct (includes "," (cleanVal s)).
    { destruct (parsed (split "," (cleanVal s))) as [|p ps]; [tauto|].
      rewrite toFixed_6. cbn [bind try_catch]. split; discriminate. }
    assert (Hfall : forall P : Prop, ~ P ->
               try_catch (Normal (if Num.isNaN (parseFloat (cleanVal s))
                                  then None else Some (parseFloat (cleanVal s))))
                 (Normal None) = Normal None
               <-> Num.isNaN (parseFloat (cleanVal s)) = true /\ ~ P).
    { intros P HP. cbn [try_catch].
      destruct (Num.isNaN (parseFloat (cleanVal s))); split; try tauto; try discriminate.
      now intros [? _]. }
    destruct (includes "-" (cleanVal s)), (startsWith "-" (cleanVal s)); cbn [andb negb];
      try (apply Hfall; intros (? & ? & ?); discriminate).
    destruct (parsed (split "-" (cleanVal s))) as [|p0 [|p1 [|p2 ps]]];
      try (apply Hfall; intros (_ & _ & ?); discriminate).
    rewrite toFixed_6. cbn [bind try_catch]. split; [discriminate|].
    intros [_ H]. exfalso. apply H. auto.
  - intros s Hs. apply all_attempts_fail. intros t Ht.
    apply parseFloat_no_digit.
    apply (attempts_all_chars punctuation (cleanVal s)); [|exact Ht].
    apply all_chars_both; [apply cleanVal_chars | exact Hs].
Qed.

(** [".-1"] is no range, one piece only parses, and it does not start with
    a number: absent.  ["-.-"] is cleaned to a text without a digit. *)
Lemma parseCoordinates_never_throws_witness :
  parseCoordinates (JStr ".-1") = Normal None
  /\ parseCoordinates (JStr "-.-") = Normal None.
Proof.
  split.
  - apply (proj2 (proj1 (proj2 parseCoordinates_never_throws) ".-1")).
    vm_compute. split; [reflexivity | intros (_ & _ & H); discriminate].
  - apply (proj2 (proj2 parseCoordinates_never_throws) "-.-"). reflexivity.
Defined.

(** C6 as stated fails: ["1.2.3"] is no number, no list and no range, and
    the result is not absent: it is [1.2], the number at its head. *)
Lemma malformed_text_yields_number :
  decimal_text (cleanVal "1.2.3") = false
  /\ includes "," (cleanVal "1.2.3") = false
  /\ includes "-" (cleanVal "1.2.3") = false
  /\ parseCoordinates (JStr "1.2.3") = Normal (Some (Num.of_decimal false 12 (-1)))
  /\ parseCoordinates (JStr "1.2.3") <> Normal None.
Proof. repeat split; vm_compute; (reflexivity || discriminate). Qed.

(** A list whose sum is not a number gives it back as the result: the
    numbers of 310 digits read as infinities, and their sum is NaN. *)
Example list_of_infinities :
  parseCoordinates (JStr (String "1" (zeros 309) +:+ ",-1" +:+ zeros 309))
  = Normal (Some Num.NaN).
Proof. vm_compute. reflexivity. Qed.

(** C1 as the code has it: when the cleaned text holds no comma, does not
    start with a hyphen and three or more of its hyphen-separated pieces
    parse, the range branch is left and the whole text is parsed, which
    reads the number at its head: the result is the value of the first
    piece, and absent only when the first piece does not parse. *)
Theorem many_hyphens_read_first_number (s : string) :
  includes "," (cleanVal s) = false ->
  startsWith "-" (cleanVal s) = false ->
  (2 < length (parts "-" (cleanVal s)))%nat ->
  let num := parseFloat (cleanVal s) in
  parseCoordinates (JStr s) = Normal (if Num.isNaN num then None else Some num)
  /\ num = parseFloat (hd EmptyString (split "-" (cleanVal s))).
Proof.
  intros Hcomma Hstart Hlen num. split.
  - rewrite parseCoordinates_JStr. unfold try_block. rewrite Hcomma, Hstart.
    destruct (includes "-" (cleanVal s)); [|reflexivity]. cbn [andb negb].
    destruct (parts "-" (cleanVal s)) as [|p0 [|p1 [|p2 ps]]]; try reflexivity.
    simpl in Hlen. lia.
  - apply parseFloat_first_piece; [apply cleanVal_chars | assumption..].
Qed.

(** ["10-20-30"] yields [10]. *)
Lemma many_hyphens_read_first_number_witness :
  parseCoordinates (JStr "10-20-30") = Normal (Some (lit 10)).
Proof.
  destruct (many_hyphens_read_first_number "10-20-30") as [H _];
    [reflexivity | reflexivity | vm_compute; lia | rewrite H; vm_compute; reflexivity].
Defined.

(** C1 as stated fails: ["10-20-30"] has three numeric pieces and the
    result is not absent. *)
Lemma many_hyphens_not_absent :
  (2 < length (parts "-" (cleanVal "10-20-30")))%nat
  /\ parseCoordinates (JStr "10-20-30") <> Normal None.
Proof. split; [vm_compute; lia | vm_compute; discriminate]. Qed.

(** * [exportToCSV] *)

Section Exporter.

Lemma replace_all_double_quotes (s : string) :
  replace_all (Ascii.eqb dquote) (String dquote (String dquote EmptyString)) s
  = double_quotes s.
Proof.
  induction s as [|a s IH]; cbn [replace_all double_quotes]; [reflexivity|].
  rewrite IH, (Ascii.eqb_sym dquote a). now destruct (Ascii.eqb a dquote).
Qed.

(** The cell the code writes is the escaped text of the field. *)
Lemma cell_escaped (v : jsval) : cell v = escaped (field_text v).
Proof.
  destruct v as [| |x|s]; try reflexivity;
    unfold cell, escaped, field_text; now rewrite replace_all_double_quotes.
Qed.

Lemma header_line_join : join (String comma EmptyString) headers = header_line.
Proof. reflexivity. Qed.

Lemma join_cons (sep x y : string) (l : list string) :
  join sep (x :: y :: l) = x +:+ sep +:+ join sep (y :: l).
Proof. reflexivity. Qed.

(** The document, line by line. *)
Lemma csvContent_lines (data : list record) :
  csvContent data
  = join (String LF EmptyString)
      (header_line
       :: List.map (fun row => join (String comma EmptyString)
                     (List.map (fun h => escaped (field_text (get row h))) headers)) data).
Proof.
  unfold csvContent. rewrite header_line_join. do 2 f_equal.
  apply map_ext. intros row. f_equal. apply map_ext. intros h. apply cell_escaped.
Qed.

Lemma split_first_line (a r : string) :
  includes LF a = false -> hd EmptyString (split LF (a +:+ String LF r)) = a.
Proof.
  intros Ha. induction a as [|x a IH].
  - reflexivity.
  - rewrite append_cons. simpl in *. apply orb_false_elim in Ha as [Hx Ha].
    rewrite Hx. specialize (IH Ha).
    destruct (split LF (a +:+ String LF r)); simpl in *; now subst.
Qed.

End Exporter.

(** * Reading the exported text back *)

Section Reader.

Import Rfc4180.

Lemma snoc_append (f : string) (c : ascii) (t : string) :
  snoc f c +:+ t = f +:+ String c t.
Proof. unfold snoc. now rewrite append_assoc. Qed.

(** A code unit that is no comma, quote or line break continues an
    unquoted field, or starts one. *)
Lemma read_plain_char (st : state) (c : ascii) (f : string) (fs : list string)
    (rs : list (list string)) (rest : string) :
  st = RecordStart \/ st = FieldStart \/ st = Unquoted ->
  Ascii.eqb c comma = false -> Ascii.eqb c dquote = false ->
  Ascii.eqb c LF = false -> Ascii.eqb c CR = false ->
  read st f fs rs (String c rest) = read Unquoted (snoc f c) fs rs rest.
Proof.
  intros Hst Hcomma Hquote Hlf Hcr.
  destruct Hst as [->|[->| ->]]; cbn [read]; now rewrite Hcomma, Hquote, Hlf, Hcr.
Qed.

Lemma read_plain (t : string) :
  includes comma t = false -> includes dquote t = false ->
  includes LF t = false -> includes CR t = false ->
  forall st f fs rs rest,
    st = RecordStart \/ st = FieldStart \/ st = Unquoted ->
    exists st',
      read st f fs rs (t +:+ rest) = read st' (f +:+ t) fs rs rest
      /\ (st' = Unquoted \/ (st' = st /\ t = EmptyString)).
Proof.
  induction t as [|c t IH]; intros Hcomma Hquote Hlf Hcr st f fs rs rest Hst.
  - exists st. rewrite append_nil, append_empty_r. auto.
  - cbn [includes] in *.
    apply orb_false_elim in Hcomma as [Hc1 Hcomma], Hquote as [Hc2 Hquote],
      Hlf as [Hc3 Hlf], Hcr as [Hc4 Hcr].
    rewrite append_cons, (read_plain_char st) by assumption.
    destruct (IH Hcomma Hquote Hlf Hcr Unquoted (snoc f c) fs rs rest) as (st' & -> & Hst');
      [auto|].
    exists Unquoted. rewrite snoc_append. split; [|now left].
    now destruct Hst' as [->|[-> _]].
Qed.

(** A quoted field is read up to its closing quote, doubled quotes giving
    one quote each. *)
Lemma read_quoted (t : string) :
  forall f fs rs rest,
    read Quoted f fs rs (double_quotes t +:+ String dquote rest)
    = read QuoteSeen (f +:+ t) fs rs rest.
Proof.
  induction t as [|c t IH]; intros f fs rs rest.
  - rewrite append_empty_r. cbn [double_quotes]. rewrite append_nil.
    cbn [read]. now rewrite Ascii.eqb_refl.
  - cbn [double_quotes]. destruct (Ascii.eqb c dquote) eqn:Hc.
    + apply Ascii.eqb_eq in Hc as ->.
      rewrite !append_cons. cbn [read]. rewrite Ascii.eqb_refl.
      now rewrite IH, snoc_append.
    + rewrite append_cons. cbn [read]. rewrite Hc.
      now rewrite IH, snoc_append.
Qed.

(** An escaped text is read back as the text, in a state in which a
    comma, a line break or the end of the input finish the field. *)
Lemma read_escaped (st : state) (t : string) (fs : list string)
    (rs : list (list string)) (rest : string) :
  st = RecordStart \/ st = FieldStart ->
  bare_line_break t = false ->
  exists st',
    read st EmptyString fs rs (escaped t +:+ rest) = read st' t fs rs rest
    /\ (st' = QuoteSeen \/ st' = Unquoted \/ (st' = st /\ t = EmptyString)).
Proof.
  intros Hst Hok. unfold escaped. unfold bare_line_break in Hok.
  destruct (includes comma t || includes dquote t) eqn:Hq.
  - exists QuoteSeen. split; [|now left].
    rewrite append_cons, append_assoc, append_cons, append_nil.
    assert (Hopen : forall u, read st EmptyString fs rs (String dquote u)
                              = read Quoted EmptyString fs rs u)
      by (intros u; now destruct Hst as [->| ->]).
    now rewrite Hopen, read_quoted.
  - rewrite andb_true_r in Hok.
    apply orb_false_elim in Hq as [Hcomma Hquote], Hok as [Hlf Hcr].
    destruct (read_plain t Hcomma Hquote Hlf Hcr st EmptyString fs rs rest)
      as (st' & -> & Hst'); [tauto|].
    exists st'. split; [reflexivity | now right].
Qed.

Lemma read_comma (st : state) (f : string) (fs : list string)
    (rs : list (list string)) (rest : string) :
  st <> Quoted ->
  read st f fs rs (String comma rest) = read FieldStart EmptyString (fs ++ [f]) rs rest.
Proof. now destruct st. Qed.

Lemma read_line_feed (st : state) (f : string) (fs : list string)
    (rs : list (list string)) (rest : string) :
  st <> Quoted -> st <> CRSeen ->
  read st f fs rs (String LF rest) = read RecordStart EmptyString [] (rs ++ [fs ++ [f]]) rest.
Proof. now destruct st. Qed.

Lemma read_end (st : state) (f : string) (fs : list string) (rs : list (list string)) :
  st = QuoteSeen \/ st = Unquoted \/ st = FieldStart ->
  read st f fs rs EmptyString = Some (rs ++ [fs ++ [f]]).
Proof. now intros [->|[->| ->]]. Qed.

(** The fields of one line: up to the line feed that follows it, or up to
    the end of the input. *)
Lemma read_fields (ts : list string) :
  forall t st fs rs,
    st = RecordStart \/ st = FieldStart ->
    Forall (fun u => bare_line_break u = false) (t :: ts) ->
    (forall rest,
        read st EmptyString fs rs
          (join (String comma EmptyString) (List.map escaped (t :: ts)) +:+ String LF rest)
        = read RecordStart EmptyString [] (rs ++ [fs ++ t :: ts]) rest)
    /\ (st = FieldStart \/ ts <> [] ->
        read st EmptyString fs rs (join (String comma EmptyString) (List.map escaped (t :: ts)))
        = Some (rs ++ [fs ++ t :: ts])).
Proof.
  induction ts as [|t' ts IH]; intros t st fs rs Hst Hok.
  - apply Forall_inv in Hok. cbn [List.map join]. split.
    + intros rest.
      destruct (read_escaped st t fs rs (String LF rest) Hst Hok) as (st' & -> & Hst').
      apply read_line_feed; destruct Hst as [->| ->], Hst' as [->|[->|[-> _]]]; discriminate.
    + intros [->|Hne]; [|contradiction].
      destruct (read_escaped FieldStart t fs rs EmptyString) as (st' & H & Hst'); [auto..|].
      rewrite append_empty_r in H. rewrite H.
      apply read_end. destruct Hst' as [->|[->|[-> _]]]; auto.
  - pose proof (Forall_inv Hok) as Ht. apply Forall_inv_tail in Hok.
    change (List.map escaped (t :: t' :: ts)) with (escaped t :: escaped t' :: List.map escaped ts).
    rewrite join_cons.
    change (escaped t' :: List.map escaped ts) with (List.map escaped (t' :: ts)).
    destruct (IH t' FieldStart (fs ++ [t]) rs (or_intror eq_refl) Hok) as [IHlf IHend].
    assert (Hstep : forall rest,
               read st EmptyString fs rs (escaped t +:+ String comma rest)
               = read FieldStart EmptyString (fs ++ [t]) rs rest).
    { intros rest.
      destruct (read_escaped st t fs rs (String comma rest) Hst Ht) as (st' & -> & Hst').
      apply read_comma. destruct Hst as [->| ->], Hst' as [->|[->|[-> _]]]; discriminate. }
    split.
    + intros rest. rewrite !append_assoc, append_cons, append_nil.
      rewrite Hstep, IHlf. now rewrite <- app_assoc.
    + intros _. rewrite append_cons, append_nil.
      rewrite Hstep, IHend by now left. now rewrite <- app_assoc.
Qed.

(** The lines of a document, each of two fields or more. *)
Lemma read_lines (rows : list (list string)) :
  forall row rs,
    Forall (fun r => (2 <= length r)%nat /\ Forall (fun u => bare_line_break u = false) r)
      (row :: rows) ->
    read RecordStart EmptyString [] rs
      (join (String LF EmptyString)
         (List.map (fun r => join (String comma EmptyString) (List.map escaped r)) (row :: rows)))
    = Some (rs ++ row :: rows).
Proof.
  induction rows as [|row' rows IH]; intros row rs Hok.
  - apply Forall_inv in Hok as [Hlen Hok].
    destruct row as [|t [|t' ts]]; simpl in Hlen; try lia.
    cbn [List.map join].
    apply (read_fields (t' :: ts) t RecordStart [] rs); [now left | assumption | now right].
  - pose proof (Forall_inv Hok) as [Hlen Hrow]. apply Forall_inv_tail in Hok.
    destruct row as [|t ts]; simpl in Hlen; try lia.
    set (line := fun r => join (String comma EmptyString) (List.map escaped r)).
    change (List.map line ((t :: ts) :: row' :: rows))
      with (line (t :: ts) :: line row' :: List.map line rows).
    rewrite join_cons.
    change (line row' :: List.map line rows) with (List.map line (row' :: rows)).
    rewrite append_cons, append_nil. unfold line at 1.
    rewrite (proj1 (read_fields ts t RecordStart [] rs (or_introl eq_refl) Hrow)).
    rewrite IH by assumption. now rewrite <- app_assoc.
Qed.

End Reader.

Section Table.

Lemma headers_33 : length headers = 33%nat.
Proof. reflexivity. Qed.

Lemma headers_plain : Forall (fun u => bare_line_break u = false) headers.
Proof.
  apply List.Forall_forall. intros h Hh.
  assert (H : forallb (fun u => negb (bare_line_break u)) headers = true) by reflexivity.
  rewrite forallb_forall in H. apply negb_true_iff. apply H, Hh.
Qed.

Lemma headers_escaped : List.map escaped headers = headers.
Proof. reflexivity. Qed.

(** The document is the table, each text escaped, each row joined by
    commas and the rows joined by line feeds. *)
Lemma csvContent_table (data : list record) :
  csvContent data
  = join (String LF EmptyString)
      (List.map (fun r => join (String comma EmptyString) (List.map escaped r)) (table data)).
Proof.
  rewrite csvContent_lines. unfold table. cbn [List.map].
  rewrite headers_escaped, header_line_join, map_map.
  f_equal.
Qed.

Lemma exportToCSV_some (data : list record) (filename : string) (started : list download) :
  data <> [] ->
  exportToCSV (Some data) filename started
  = started ++ [Download filename "text/csv;charset=utf-8;" (csvContent data)].
Proof. destruct data; [contradiction | reflexivity]. Qed.

End Table.

(** C9: with no records, passed as an empty list or not at all, the export
    returns at once: no download is started, not even one of a document
    that holds only the header line. *)
Theorem exportToCSV_empty_is_noop (filename : string) (started : list download) :
  exportToCSV (Some []) filename started = started
  /\ exportToCSV None filename started = started.
Proof. split; reflexivity. Qed.

(** C7: for a list of records that is not empty, the first line of the
    exported text is the 33 names of the schema in declared order, joined
    by commas, whatever the records hold. *)
Theorem header_line_first (data : list record) (filename : string)
    (started : list download) :
  data <> [] ->
  exists content,
    exportToCSV (Some data) filename started
    = started ++ [Download filename "text/csv;charset=utf-8;" content]
    /\ first_line content = header_line
    /\ header_line = join (String comma EmptyString) headers
    /\ length headers = 33%nat.
Proof.
  intros Hdata. exists (csvContent data).
  split; [now apply exportToCSV_some|]. split; [|split; reflexivity].
  rewrite csvContent_lines. destruct data as [|row data]; [contradiction|].
  cbn [List.map]. rewrite join_cons, append_cons, append_nil.
  now apply split_first_line.
Qed.

Lemma header_line_first_witness :
  exists content,
    exportToCSV (Some [ {[ "Title" := JStr "Soil carbon" ]} ]) "out.csv" []
    = [] ++ [Download "out.csv" "text/csv;charset=utf-8;" content]
    /\ first_line content = header_line
    /\ header_line = join (String comma EmptyString) headers
    /\ length headers = 33%nat.
Proof.
  apply (header_line_first [ {[ "Title" := JStr "Soil carbon" ]} ] "out.csv" []).
  discriminate.
Defined.

(** C8: every cell is the string representation of its field, the empty
    string for an absent field, between double quotes with its quotes
    doubled when it holds a comma or a double quote and as it is
    otherwise; the document is made of these cells. *)
Theorem cells_are_escaped :
  (forall val, cell val = escaped (field_text val))
  /\ (forall data,
        csvContent data
        = join (String LF EmptyString)
            (header_line
             :: List.map (fun row => join (String comma EmptyString)
                           (List.map (fun h => escaped (field_text (get row h))) headers))
                  data)).
Proof. split; [exact cell_escaped | exact csvContent_lines]. Qed.

(** C10: two lists of records of the same length whose records agree, one
    by one, on the 33 columns export to the same text and the same
    download, whatever else the records hold. *)
Theorem export_depends_on_columns (data1 data2 : list record) (filename : string)
    (started : list download) :
  Forall2 same_columns data1 data2 ->
  csvContent data1 = csvContent data2
  /\ exportToCSV (Some data1) filename started = exportToCSV (Some data2) filename started.
Proof.
  intros Hsame.
  assert (Hcsv : csvContent data1 = csvContent data2).
  { unfold csvContent. do 2 f_equal.
    induction Hsame as [|r1 r2 d1 d2 Hr _ IH]; [reflexivity|].
    cbn [List.map]. rewrite IH. do 2 f_equal.
    apply map_ext_in. intros h Hh. now rewrite (Hr h Hh). }
  split; [exact Hcsv|].
  destruct Hsame; [reflexivity|]. cbn [exportToCSV]. now rewrite Hcsv.
Qed.

Lemma export_depends_on_columns_witness :
  csvContent [ {[ "Title" := JStr "Soil carbon" ]} ]
  = csvContent [ <[ "id" := JStr "sim-1" ]> (<[ "rawText" := JStr "An abstract, in full." ]>
                                               {[ "Title" := JStr "Soil carbon" ]}) ].
Proof.
  apply (export_depends_on_columns _ _ "out.csv" []).
  constructor; [|constructor].
  intros h Hh. cbn in Hh.
  repeat (destruct Hh as [<-|Hh]; [reflexivity|]). destruct Hh.
Defined.

(** C2 as the code has it: for a list of records that is not empty and in
    which no field text holds a line break without also holding a comma
    or a double quote, a reader for RFC 4180 finds in the exported text
    the header row and, for each record, the string representation of
    each of the 33 fields, the empty string for an absent field. *)
Theorem csv_round_trip (data : list record) (filename : string)
    (started : list download) :
  data <> [] ->
  (forall row h, In row data -> In h headers ->
     bare_line_break (field_text (get row h)) = false) ->
  exists content,
    exportToCSV (Some data) filename started
    = started ++ [Download filename "text/csv;charset=utf-8;" content]
    /\ Rfc4180.parse content = Some (table data).
Proof.
  intros Hdata Hok. exists (csvContent data). split; [now apply exportToCSV_some|].
  rewrite csvContent_table. unfold Rfc4180.parse, table.
  rewrite read_lines; [reflexivity|].
  constructor.
  - split; [rewrite headers_33; lia | apply headers_plain].
  - apply List.Forall_forall. intros r (row & <- & Hrow)%in_map_iff. split.
    + rewrite length_map, headers_33. lia.
    + apply List.Forall_forall. intros u (h & <- & Hh)%in_map_iff. now apply Hok.
Qed.

Lemma csv_round_trip_witness :
  exists content,
    exportToCSV (Some [ {[ "Authors" := JStr "Smith, J." ]} ]) "out.csv" []
    = [] ++ [Download "out.csv" "text/csv;charset=utf-8;" content]
    /\ Rfc4180.parse content = Some (table [ {[ "Authors" := JStr "Smith, J." ]} ]).
Proof.
  apply (csv_round_trip [ {[ "Authors" := JStr "Smith, J." ]} ] "out.csv" []).
  - discriminate.
  - intros row h [<-|[]] Hh. cbn in Hh.
    repeat (destruct Hh as [<-|Hh]; [reflexivity|]). destruct Hh.
Defined.

(** C2 as stated fails: a title with a line feed and no comma or quote
    goes out unquoted, and the reader finds two short records where the
    one record was. *)
Lemma csv_round_trip_broken_by_line_feed :
  exportToCSV (Some two_line_title) "out.csv" []
  = [Download "out.csv" "text/csv;charset=utf-8;" (csvContent two_line_title)]
  /\ bare_line_break (field_text (get (hd ∅ two_line_title) "Title")) = true
  /\ Rfc4180.parse (csvContent two_line_title) <> Some (table two_line_title).
Proof. split; [reflexivity | split; [reflexivity | vm_compute; discriminate]]. Qed.

(** * Worked examples *)

Section Examples.

#[local] Set Warnings "-inexact-float".

(** The built-ins on values whose JavaScript results are well known. *)

Example parseFloat_examples :
  List.map parseFloat ["10.5"; "5."; ".5"; "1e3"; "1.2.3"; " 12"; "10-20-30"]
  = [lit 10.5; lit 5; lit 0.5; lit 1000; lit 1.2; lit 12; lit 10]
  /\ List.map (fun t => Num.isNaN (parseFloat t)) [""; "."; "-"; "--5"; "abc"]
     = [true; true; true; true; true].
Proof. split; vm_compute; reflexivity. Qed.

Example number_to_string_examples :
  List.map (fun x => number_to_string (lit x))
    [2025; 0.5; 0.1; 1e21; 123456789012345680000; 0.000001; 1e-7; -10.5]%float
  = ["2025"; "0.5"; "0.1"; "1e+21"; "123456789012345680000"; "0.000001"; "1e-7"; "-10.5"].
Proof. vm_compute. reflexivity. Qed.

Example toFixed_examples :
  List.map (fun x => toFixed (lit x) 6) [20; 11.5; 0.1; 1.0000005; -1.5; 1e21]%float
  = List.map Normal ["20.000000"; "11.500000"; "0.100000"; "1.000001"; "-1.500000"; "1e+21"]
  /\ toFixed (lit 1) 101 = Throw.
Proof. split; vm_compute; reflexivity. Qed.

(** [parseCoordinates] on the inputs the specification lists. *)

Example parseCoordinates_absent :
  parseCoordinates JUndefined = Normal None
  /\ parseCoordinates JNull = Normal None
  /\ parseCoordinates (JStr "") = Normal None
  /\ parseCoordinates (JStr "abc") = Normal None.
Proof. repeat split; reflexivity. Qed.

Example parseCoordinates_number (x : number) :
  parseCoordinates (JNum x) = Normal (Some x).
Proof. reflexivity. Qed.

(** ["10°N"], the degree sign being the code unit 176. *)
Example parseCoordinates_degrees :
  parseCoordinates (JStr (String "1" (String "0" (String "176" (String "N" EmptyString)))))
  = Normal (Some (lit 10)).
Proof. vm_compute. reflexivity. Qed.

Example parseCoordinates_list_with_text :
  parseCoordinates (JStr "10, abc") = Normal (Some (lit 10)).
Proof. vm_compute. reflexivity. Qed.

(** A comma is looked for first: hyphens in a text with a comma separate
    nothing, each comma-separated piece is read up to its first hyphen. *)
Example parseCoordinates_comma_before_hyphen :
  parseCoordinates (JStr "1-2-3,4") = Normal (Some (lit 2.5)).
Proof. vm_compute. reflexivity. Qed.

(** Two hyphens in a row leave two pieces that parse: a range. *)
Example parseCoordinates_double_hyphen :
  parseCoordinates (JStr "10--20") = Normal (Some (lit 15)).
Proof. vm_compute. reflexivity. Qed.

(** Cells. *)

Example cell_with_comma :
  cell (JStr "Smith, J.") = String dquote ("Smith, J." +:+ String dquote EmptyString).
Proof. reflexivity. Qed.

Example cell_with_quotes :
  cell (JStr ("A " +:+ String dquote ("Test" +:+ String dquote " Study")))
  = String dquote
      ("A " +:+ String dquote (String dquote
         ("Test" +:+ String dquote (String dquote (" Study" +:+ String dquote EmptyString))))).
Proof. reflexivity. Qed.

Example cell_plain :
  cell (JNum (lit 2025)) = "2025" /\ cell (JStr "Geoderma") = "Geoderma"
  /\ cell JUndefined = EmptyString /\ cell JNull = EmptyString.
Proof. repeat split; vm_compute; reflexivity. Qed.

End Examples.

(** * More of [parseCoordinates] *)

Section Cleaning.

Lemma replace_all_append (p : ascii -> bool) (by_ s t : string) :
  replace_all p by_ (s +:+ t) = replace_all p by_ s +:+ replace_all p by_ t.
Proof.
  induction s as [|a s IH]; [reflexivity|].
  rewrite append_cons. cbn [replace_all]. rewrite IH.
  destruct (p a); [now rewrite append_assoc | reflexivity].
Qed.

Lemma replace_all_none (p : ascii -> bool) (by_ s : string) :
  all_chars (fun c => negb (p c)) s = true -> replace_all p by_ s = s.
Proof.
  induction s as [|a s IH]; simpl; [reflexivity|].
  intros [Ha Hs]%andb_prop. apply negb_true_iff in Ha. now rewrite Ha, IH.
Qed.

Lemma coordinate_char_not_space (c : ascii) :
  coordinate_char c = true -> is_space c = false.
Proof. by_ascii_cases c. Qed.

Lemma trimStart_none (s : string) :
  all_chars (fun c => negb (is_space c)) s = true -> trimStart s = s.
Proof.
  destruct s as [|a s]; simpl; [reflexivity|].
  intros [Ha _]%andb_prop. apply negb_true_iff in Ha. now rewrite Ha.
Qed.

Lemma trimEnd_none (s : string) :
  all_chars (fun c => negb (is_space c)) s = true -> trimEnd s = s.
Proof.
  induction s as [|a s IH]; simpl; [reflexivity|].
  intros [Ha Hs]%andb_prop. apply negb_true_iff in Ha. rewrite (IH Hs), Ha.
  now destruct s.
Qed.

Lemma trim_none (s : string) :
  all_chars coordinate_char s = true -> trim s = s.
Proof.
  intros Hs.
  assert (H : all_chars (fun c => negb (is_space c)) s = true).
  { revert Hs. apply all_chars_weaken. intros c Hc.
    now rewrite (coordinate_char_not_space c Hc). }
  unfold trim. now rewrite (trimStart_none s H), trimEnd_none.
Qed.

Lemma cleanVal_filter (s : string) :
  cleanVal s = replace_all not_coordinate_char EmptyString s.
Proof.
  unfold cleanVal. apply trim_none.
  eapply all_chars_weaken; [|apply all_chars_replace_all].
  intros c. unfold not_coordinate_char, coordinate_char. now rewrite negb_involutive.
Qed.

(** The [try] block completes normally on every text. *)
Lemma try_block_normal (clean : string) :
  exists r, try_block clean = Normal r.
Proof.
  unfold try_block, fallback.
  destruct (includes "," clean).
  - destruct (parts "," clean); [|rewrite toFixed_6]; eexists; reflexivity.
  - destruct (includes "-" clean && negb (startsWith "-" clean)); [|eexists; reflexivity].
    destruct (parts "-" clean) as [|p0 [|p1 [|p2 ps]]]; try rewrite toFixed_6;
      eexists; reflexivity.
Qed.

End Cleaning.

(** X1: a character that is no digit, point, hyphen or comma changes
    nothing, wherever it stands in the text. *)
Theorem stripped_characters_do_not_matter (a b : string) (c : ascii) :
  not_coordinate_char c = true ->
  parseCoordinates (JStr (a +:+ String c b)) = parseCoordinates (JStr (a +:+ b)).
Proof.
  intros Hc. rewrite !parseCoordinates_JStr, !cleanVal_filter, !replace_all_append.
  cbn [replace_all]. now rewrite Hc, append_nil.
Qed.

(** The letter of an exponent is stripped like any other: ["1e5"] reads
    as [15]. *)
Lemma stripped_characters_do_not_matter_witness :
  parseCoordinates (JStr "1e5") = Normal (Some (lit 15)).
Proof.
  refine (eq_trans (stripped_characters_do_not_matter "1" "5" "e" _) _);
    [reflexivity | vm_compute; reflexivity].
Defined.

(** X2: after the replacement there is nothing left to trim, and a
    cleaned text is cleaned to itself. *)
Theorem cleaning_is_a_filter (s : string) :
  cleanVal s = replace_all not_coordinate_char EmptyString s
  /\ cleanVal (cleanVal s) = cleanVal s
  /\ parseCoordinates (JStr (cleanVal s)) = parseCoordinates (JStr s).
Proof.
  assert (H : cleanVal (cleanVal s) = cleanVal s).
  { rewrite (cleanVal_filter (cleanVal s)). apply replace_all_none.
    eapply all_chars_weaken; [|apply cleanVal_chars].
    intros c Hc. unfold not_coordinate_char, coordinate_char in *.
    now rewrite Hc. }
  split; [apply cleanVal_filter | split; [exact H|]].
  now rewrite !parseCoordinates_JStr, H.
Qed.

(** X3: the handler of the [try] statement never runs: the block itself
    completes normally on every text, so the result of [parseCoordinates]
    on a string is the result of the block. *)
Theorem catch_never_runs (s : string) :
  exists r, try_block (cleanVal s) = Normal r /\ parseCoordinates (JStr s) = Normal r.
Proof.
  destruct (try_block_normal (cleanVal s)) as [r Hr]. exists r.
  split; [exact Hr|]. now rewrite parseCoordinates_JStr, Hr.
Qed.

(** X4: the last step of the list and range branches,
    [parseFloat(x.toFixed(6))], takes a finite [x] below [10 ^ 21] in
    magnitude to the Number nearest to [n / 10 ^ 6], [n] being the integer
    nearest to [|x| * 10 ^ 6] (the larger of two), with the sign of [x]. *)
Theorem rounding_step_nearest_millionth (s : bool) (m : positive) (e : Z) :
  fst (fraction m e) < snd (fraction m e) * 10 ^ 21 ->
  round6 (S754_finite s m e)
  = Num.of_decimal s
      ((2 * (fst (fraction m e) * 10 ^ 6) + snd (fraction m e)) / (2 * snd (fraction m e)))
      (-6).
Proof. apply round6_finite. Qed.

(** The Number nearest to one third is rounded to [0.333333]. *)
Lemma rounding_step_nearest_millionth_witness :
  round6 (S754_finite false 6004799503160661 (-54)) = Num.of_decimal false 333333 (-6).
Proof.
  refine (eq_trans (rounding_step_nearest_millionth false 6004799503160661 (-54) _) _);
    vm_compute; reflexivity.
Defined.

(** * The sign of the result *)

Section Sign.

Lemma binary_round_aux_nonneg (q e : Z) (l : location) :
  signbit (binary_round_aux Num.prec Num.emax false q e l) = false.
Proof.
  unfold binary_round_aux.
  destruct (shr_fexp _ _ q e l) as [mrs' e'].
  destruct (shr_fexp _ _ _ e' loc_Exact) as [mrs'' e''].
  destruct (shr_m mrs''); [reflexivity| |reflexivity].
  now destruct (e'' <=? Num.emax - Num.prec).
Qed.

Lemma binary_round_nonneg (m : positive) (e : Z) :
  signbit (binary_round Num.prec Num.emax false m e) = false.
Proof. unfold binary_round. destruct (shl_align _ _ _). apply binary_round_aux_nonneg. Qed.

Lemma of_decimal_nonneg (m e : Z) : signbit (Num.of_decimal false m e) = false.
Proof.
  destruct (Num.isNaN (Num.of_decimal false m e)) eqn:E.
  - now destruct (Num.of_decimal false m e).
  - now apply of_decimal_sign.
Qed.

Lemma unsigned_literal_nonneg (s : string) : signbit (unsigned_literal false s) = false.
Proof.
  destruct (Num.isNaN (unsigned_literal false s)) eqn:E.
  - now destruct (unsigned_literal false s).
  - now apply unsigned_literal_sign.
Qed.

(** A sum of two Numbers that are not negative is not negative. *)
Lemma add_nonneg (a b : number) :
  signbit a = false -> signbit b = false -> signbit (Num.add a b) = false.
Proof.
  destruct a as [sa|sa| |sa ma ea], b as [sb|sb| |sb mb eb]; simpl;
    intros Ha Hb; subst; try reflexivity.
  unfold Num.add, SFadd. cbn [cond_Zopp].
  change (Z.pos ?x + Z.pos ?y) with (Z.pos (x + y)).
  cbn [binary_normalize]. apply binary_round_nonneg.
Qed.

(** Halving keeps the sign. *)
Lemma half_nonneg (a : number) :
  signbit a = false -> signbit (Num.div a (Num.of_Z 2)) = false.
Proof.
  change (Num.of_Z 2) with (S754_finite false 4503599627370496 (-51)).
  destruct a as [sa|sa| |sa ma ea]; simpl; intros Ha; subst; try reflexivity.
  unfold Num.div, SFdiv.
  destruct (SFdiv_core_binary _ _ _ _ _ _) as [[q e] l].
  apply binary_round_aux_nonneg.
Qed.

(** The text of a Number starts with a digit, unless it is negative,
    infinite or not a number. *)
Lemma shortest_from_digits (fuel : nat) (x : number) (ab : Z * Z) (p k : Z) :
  all_chars is_digit (fst (shortest_from fuel x ab p k)) = true
  /\ (1 <= String.length (fst (shortest_from fuel x ab p k)))%nat.
Proof.
  revert k. induction fuel as [|fuel IH]; intros k; cbn [shortest_from].
  - cbn [fst]. now destruct (string_of_uint_spec (N.to_uint (Z.to_N
        (fst (scale10 ab (k - p)) / snd (scale10 ab (k - p)))))) as (H1 & _ & H2).
  - destruct (shortest_at x ab p k) as [s|]; [|apply IH].
    destruct (s =? 10 ^ k); cbn [fst]; [split; [reflexivity | simpl; lia]|].
    now destruct (string_of_uint_spec (N.to_uint (Z.to_N s))) as (H1 & _ & H2).
Qed.

Lemma positive_to_string_digits (m : positive) (e : Z) :
  exists c r, positive_to_string m e = String c r /\ is_digit c = true.
Proof.
  unfold positive_to_string.
  pose proof (shortest_from_digits 17 (S754_finite false m e) (fraction m e)
                (magnitude10 (fraction m e)) 1) as [Hall Hlen].
  destruct (shortest_from 17 _ _ _ 1) as [ds n]. cbn [fst] in *.
  destruct ds as [|c ds]; [simpl in Hlen; lia|].
  simpl in Hall. apply andb_prop in Hall as [Hc _].
  destruct ((-5 <=? n) && (n <=? 21)).
  - destruct (Z.of_nat (String.length (String c ds)) <=? n).
    { rewrite append_cons. eauto. }
    destruct (Z.ltb_spec 0 n) as [Hn|Hn].
    + destruct (Z.to_nat n) as [|j] eqn:Ej; [lia|]. cbn [take]. rewrite append_cons. eauto.
    + eexists _, _. split; reflexivity.
  - destruct (Z.of_nat (String.length (String c ds)) =? 1).
    + rewrite append_cons. eauto.
    + cbn [take]. rewrite append_cons. eauto.
Qed.

Lemma parseFloat_digit_head (c : ascii) (r : string) :
  is_digit c = true -> parseFloat (String c r) = unsigned_literal false (String c r).
Proof.
  intros Hc. apply digit_is_digit_or_point, digit_or_point_char in Hc as (H1 & H2 & H3 & _).
  unfold parseFloat. cbn [trimStart]. now rewrite H1, H2, H3.
Qed.

(** Rounding to six decimal places keeps a Number that is not negative so. *)
Lemma round6_nonneg (x : number) : signbit x = false -> signbit (round6 x) = false.
Proof.
  destruct x as [s|s| |s m e]; simpl; intros Hs; subst; try reflexivity.
  destruct (Z.ltb_spec (fst (fraction m e)) (snd (fraction m e) * 10 ^ 21)) as [Hsmall|Hbig].
  - rewrite round6_finite by assumption. apply of_decimal_nonneg.
  - unfold round6, toFixed_digits. destruct (fraction m e) as [a b]. cbn [fst snd] in Hbig.
    apply Z.leb_le in Hbig. rewrite Hbig.
    destruct (positive_to_string_digits m e) as (c & r & -> & Hc).
    rewrite parseFloat_digit_head by assumption. apply unsigned_literal_nonneg.
Qed.

(** The pieces between separators hold no separator. *)
Lemma split_pieces_without (c : ascii) (s : string) :
  forall t, In t (split c s) -> includes c t = false.
Proof.
  induction s as [|a s IH]; simpl.
  - intros t [<-|[]]. reflexivity.
  - destruct (Ascii.eqb a c) eqn:Ha.
    + intros t [<-|Ht]; [reflexivity | now apply IH].
    + destruct (split c s) as [|h l].
      * intros t [<-|[]]. simpl. now rewrite Ha.
      * intros t [<-|Ht]; [|apply IH; now right].
        simpl. rewrite Ha. apply IH. now left.
Qed.

(** A piece of cleaned text that does not start with a hyphen does not
    read as a negative number. *)
Lemma parseFloat_nonneg (t : string) :
  all_chars coordinate_char t = true -> startsWith "-" t = false ->
  signbit (parseFloat t) = false.
Proof.
  destruct t as [|c r]; [reflexivity|]. simpl. intros [Hc _]%andb_prop Hstart.
  unfold parseFloat. cbn [trimStart].
  rewrite (coordinate_char_not_space c Hc), Hstart.
  destruct (Ascii.eqb c "+"); apply unsigned_literal_nonneg.
Qed.

Lemma parts_hyphen_nonneg (clean : string) (p : number) :
  all_chars coordinate_char clean = true ->
  In p (parts "-" clean) -> signbit p = false.
Proof.
  intros Hchars [Hp _]%filter_In.
  apply in_map_iff in Hp as (t & <- & Ht).
  apply parseFloat_nonneg; [now apply (split_all_chars _ "-" clean)|].
  pose proof (split_pieces_without "-" clean t Ht) as H.
  destruct t as [|c r]; [reflexivity|]. simpl in *. now apply orb_false_elim in H.
Qed.

End Sign.

(** X5: on a text without a comma, a number that comes out is negative
    exactly when the cleaned text starts with a hyphen: a range is read
    between numbers that are not negative, and its mean is not negative. *)
Theorem sign_follows_leading_hyphen (s : string) (x : number) :
  includes "," (cleanVal s) = false ->
  parseCoordinates (JStr s) = Normal (Some x) ->
  signbit x = startsWith "-" (cleanVal s).
Proof.
  intros Hcomma. rewrite parseCoordinates_JStr. unfold try_block, fallback.
  rewrite Hcomma. pose proof (cleanVal_chars s) as Hchars.
  assert (Hfallback : forall r : option number,
             try_catch (Normal (if Num.isNaN (parseFloat (cleanVal s))
                                then None else Some (parseFloat (cleanVal s))))
               (Normal None) = Normal (Some x) ->
             signbit x = startsWith "-" (cleanVal s)).
  { intros _. cbn [try_catch].
    destruct (Num.isNaN (parseFloat (cleanVal s))) eqn:Hnan; intros [= <-].
    destruct (startsWith "-" (cleanVal s)) eqn:Hstart.
    - destruct (cleanVal s) as [|c r]; [discriminate|].
      simpl in Hstart. apply Ascii.eqb_eq in Hstart as ->.
      rewrite parseFloat_minus in *. now apply unsigned_literal_sign.
    - now apply parseFloat_nonneg. }
  destruct (includes "-" (cleanVal s) && negb (startsWith "-" (cleanVal s))) eqn:Hrange;
    [|apply (Hfallback None)].
  apply andb_prop in Hrange as [_ Hstart]. apply negb_true_iff in Hstart.
  pose proof (parts_hyphen_nonneg (cleanVal s)) as Hparts.
  destruct (parts "-" (cleanVal s)) as [|p0 [|p1 [|p2 ps]]];
    try apply (Hfallback None).
  rewrite toFixed_6. cbn [bind try_catch]. intros [= <-]. rewrite Hstart.
  fold (round6 (Num.div (Num.add p0 p1) (Num.of_Z 2))).
  apply round6_nonneg, half_nonneg, add_nonneg; apply Hparts; simpl; auto.
Qed.

(** ["-10--5"] is not averaged: it reads as [-10]. *)
Lemma sign_follows_leading_hyphen_witness :
  parseCoordinates (JStr "-10--5") = Normal (Some (lit (-10)))
  /\ signbit (lit (-10)) = startsWith "-" (cleanVal "-10--5").
Proof.
  assert (H : parseCoordinates (JStr "-10--5") = Normal (Some (lit (-10))))
    by (vm_compute; reflexivity).
  split; [exact H|].
  apply (sign_follows_leading_hyphen "-10--5" (lit (-10))); [reflexivity | exact H].
Defined.

(** * The cleaning step of the page *)

Section Page.

Lemma parseCoordinates_normal (value : jsval) :
  exists r, parseCoordinates value = Normal r.
Proof.
  destruct value as [| |x|s]; try (eexists; reflexivity).
  destruct (try_block_normal (cleanVal s)) as [r Hr].
  exists r. now rewrite parseCoordinates_JStr, Hr.
Qed.

(** A cleaned coordinate is cleaned to itself. *)
Lemma parseCoordinates_to_value (r : option number) :
  parseCoordinates (to_value r) = Normal r.
Proof. now destruct r. Qed.

Lemma cleanData_normal (e : record) :
  exists longitude latitude,
    parseCoordinates (get e "Longitude") = Normal longitude
    /\ parseCoordinates (get e "Latitude") = Normal latitude
    /\ cleanData e
       = Normal (<["Latitude" := to_value latitude]> (<["Longitude" := to_value longitude]> e)).
Proof.
  destruct (parseCoordinates_normal (get e "Longitude")) as [lon Hlon].
  destruct (parseCoordinates_normal (get e "Latitude")) as [lat Hlat].
  exists lon, lat. unfold cleanData. now rewrite Hlon, Hlat.
Qed.

Lemma get_insert_eq (m : record) (k : string) (v : jsval) : get (<[k := v]> m) k = v.
Proof. unfold get. now rewrite lookup_insert_eq. Qed.

Lemma get_insert_ne (m : record) (k h : string) (v : jsval) :
  k <> h -> get (<[k := v]> m) h = get m h.
Proof. intros H. unfold get. now rewrite lookup_insert_ne. Qed.

Lemma finalPaper_normal (paper : RawPaper) (e clean : record) :
  cleanData e = Normal clean ->
  finalPaper paper e
  = Normal (clean ∪ (<["rawText" := JStr (raw_text paper)]>
                       (<["id" := JStr (raw_id paper)]> ∅))).
Proof. intros H. unfold finalPaper. now rewrite H. Qed.

(** What the page adds to a record is not a column of the export. *)
Lemma headers_not_added (h : string) : In h headers -> h <> "id" /\ h <> "rawText".
Proof.
  intros Hh.
  assert (H : forallb (fun k => negb (String.eqb k "id") && negb (String.eqb k "rawText"))
                headers = true) by reflexivity.
  rewrite forallb_forall in H. specialize (H h Hh).
  apply andb_prop in H as [H1 H2]. apply negb_true_iff in H1, H2.
  now apply String.eqb_neq in H1, H2.
Qed.

Lemma union_added_ne (clean : record) (i t : string) (h : string) :
  h <> "id" -> h <> "rawText" ->
  (clean ∪ (<["rawText" := JStr t]> (<["id" := JStr i]> ∅))) !! h = clean !! h.
Proof.
  intros H1 H2. apply lookup_union_l.
  rewrite !lookup_insert_ne by congruence. apply lookup_empty.
Qed.

Lemma csvContent_same_columns (data1 data2 : list record) :
  Forall2 same_columns data1 data2 -> csvContent data1 = csvContent data2.
Proof.
  intros Hsame. unfold csvContent. do 2 f_equal.
  induction Hsame as [|r1 r2 d1 d2 Hr _ IH]; [reflexivity|].
  cbn [List.map]. rewrite IH. do 2 f_equal.
  apply map_ext_in. intros h Hh. now rewrite (Hr h Hh).
Qed.

End Page.

(** X6: cleaning leaves a number or [undefined] in the two coordinates,
    what [parseCoordinates] makes of the extracted values, and passes
    every other property through; it never throws. *)
Theorem cleanData_coordinates (extractedData : record) :
  exists clean longitude latitude,
    cleanData extractedData = Normal clean
    /\ parseCoordinates (get extractedData "Longitude") = Normal longitude
    /\ parseCoordinates (get extractedData "Latitude") = Normal latitude
    /\ get clean "Longitude" = to_value longitude
    /\ get clean "Latitude" = to_value latitude
    /\ (forall h, h <> "Longitude" -> h <> "Latitude" ->
          clean !! h = extractedData !! h).
Proof.
  destruct (cleanData_normal extractedData) as (lon & lat & Hlon & Hlat & Hclean).
  exists (<["Latitude" := to_value lat]> (<["Longitude" := to_value lon]> extractedData)),
    lon, lat.
  split; [exact Hclean|]. split; [exact Hlon|]. split; [exact Hlat|]. split; [|split].
  - rewrite get_insert_ne by discriminate. apply get_insert_eq.
  - apply get_insert_eq.
  - intros h H1 H2. now rewrite !lookup_insert_ne by congruence.
Qed.

(** X7: cleaning twice is cleaning once. *)
Theorem cleanData_idempotent (extractedData clean : record) :
  cleanData extractedData = Normal clean -> cleanData clean = Normal clean.
Proof.
  destruct (cleanData_normal extractedData) as (lon & lat & _ & _ & ->).
  intros [= <-]. unfold cleanData.
  rewrite get_insert_ne, get_insert_eq by discriminate.
  rewrite get_insert_eq, !parseCoordinates_to_value. cbn [bind].
  f_equal. rewrite (insert_id _ "Longitude" (to_value lon)).
  - apply insert_id, lookup_insert_eq.
  - rewrite lookup_insert_ne by discriminate. apply lookup_insert_eq.
Qed.

Lemma cleanData_idempotent_witness :
  cleanData (<["Latitude" := JNum (lit 11.5)]>
               (<["Longitude" := JUndefined]> {[ "Title" := JStr "Soil carbon" ]}))
  = Normal (<["Latitude" := JNum (lit 11.5)]>
              (<["Longitude" := JUndefined]> {[ "Title" := JStr "Soil carbon" ]})).
Proof.
  apply (cleanData_idempotent
           (<["Latitude" := JStr "10.5-12.5"]> {[ "Title" := JStr "Soil carbon" ]})).
  vm_compute. reflexivity.
Defined.

(** X8: the final record takes its [id] and [rawText] from the raw paper
    only when the extracted data holds no such property: the extracted
    properties are spread last and win.  Every other property is the
    cleaned one. *)
Theorem finalPaper_identity (paper : RawPaper) (extractedData : record) :
  exists final clean,
    cleanData extractedData = Normal clean
    /\ finalPaper paper extractedData = Normal final
    /\ get final "id" = default (JStr (raw_id paper)) (extractedData !! "id")
    /\ get final "rawText" = default (JStr (raw_text paper)) (extractedData !! "rawText")
    /\ (forall h, h <> "id" -> h <> "rawText" -> final !! h = clean !! h).
Proof.
  destruct (cleanData_normal extractedData) as (lon & lat & _ & _ & Hclean).
  eexists _, _. split; [exact Hclean|].
  split; [exact (finalPaper_normal paper _ _ Hclean)|].
  repeat split.
  - unfold get. rewrite lookup_union. do 3 rewrite lookup_insert_ne by discriminate.
    rewrite lookup_insert_eq. now destruct (extractedData !! "id").
  - unfold get. rewrite lookup_union. do 2 rewrite lookup_insert_ne by discriminate.
    rewrite lookup_insert_eq. now destruct (extractedData !! "rawText").
  - intros h H1 H2. now apply union_added_ne.
Qed.

(** X9: nothing of the raw paper reaches the exported text: the final
    records export like the cleaned extracted data they were made from. *)
Theorem raw_paper_not_exported (finals cleans : list record) :
  Forall2 (fun final clean =>
             exists paper extractedData,
               finalPaper paper extractedData = Normal final
               /\ cleanData extractedData = Normal clean)
    finals cleans ->
  csvContent finals = csvContent cleans.
Proof.
  intros H. apply csvContent_same_columns.
  induction H as [|final clean fs cs (paper & e & Hfinal & Hclean) _ IH]; constructor;
    [|exact IH].
  rewrite (finalPaper_normal paper e clean Hclean) in Hfinal. injection Hfinal as <-.
  intros h [H1 H2]%headers_not_added. unfold get. now rewrite union_added_ne.
Qed.

Lemma raw_paper_not_exported_witness :
  csvContent [ <["Longitude" := JUndefined]> (<["Latitude" := JUndefined]>
                 {[ "Title" := JStr "Soil carbon" ]})
               ∪ (<["rawText" := JStr "An abstract, in full."]> (<["id" := JStr "sim-1"]> ∅)) ]
  = csvContent [ <["Latitude" := JUndefined]> (<["Longitude" := JUndefined]>
                   {[ "Title" := JStr "Soil carbon" ]}) ].
Proof.
  apply raw_paper_not_exported. constructor; [|constructor].
  exists (Build_RawPaper "sim-1" "An abstract, in full." Pending),
    {[ "Title" := JStr "Soil carbon" ]}.
  split; vm_compute; reflexivity.
Defined.

(** X10: the coordinates cell shows the two cleaned coordinates only when
    both are numbers other than zero and NaN; a paper on the equator or on
    the prime meridian is shown as not available. *)
Theorem coordinates_cell_of_final (paper : RawPaper) (extractedData final : record)
    (latitude longitude : option number) :
  finalPaper paper extractedData = Normal final ->
  parseCoordinates (get extractedData "Latitude") = Normal latitude ->
  parseCoordinates (get extractedData "Longitude") = Normal longitude ->
  coordinates_cell final
  = match latitude, longitude with
    | Some (S754_zero _ | S754_nan), _ | _, Some (S754_zero _ | S754_nan)
    | None, _ | _, None => NotAvailable
    | Some lat, Some lon =>
        Shown (number_to_string lat +:+ ", " +:+ number_to_string lon)
    end.
Proof.
  intros Hfinal Hlat Hlon.
  destruct (cleanData_normal extractedData) as (lon & lat & Hlon' & Hlat' & Hclean).
  rewrite Hlon in Hlon'. rewrite Hlat in Hlat'.
  injection Hlon' as <-. injection Hlat' as <-.
  rewrite (finalPaper_normal paper _ _ Hclean) in Hfinal. injection Hfinal as <-.
  unfold coordinates_cell, get. rewrite !union_added_ne by discriminate.
  rewrite lookup_insert_eq, lookup_insert_ne, lookup_insert_eq by discriminate.
  cbn [default].
  destruct latitude as [[| | |]|], longitude as [[| | |]|]; reflexivity.
Qed.

(** Latitude ["0"], longitude ["10"]: not available. *)
Lemma coordinates_cell_of_final_witness :
  coordinates_cell
    (<["Latitude" := JNum (lit 0)]> (<["Longitude" := JNum (lit 10)]> ∅)
     ∪ (<["rawText" := JStr "An abstract."]> (<["id" := JStr "sim-1"]> ∅)))
  = NotAvailable.
Proof.
  apply (coordinates_cell_of_final (Build_RawPaper "sim-1" "An abstract." Pending)
           (<["Latitude" := JStr "0"]> {[ "Longitude" := JStr "10" ]})
           _ (Some (lit 0)) (Some (lit 10))); vm_compute; reflexivity.
Defined.

(** * More of [exportToCSV] *)

Section Cells.

Lemma digit_plain (c : ascii) : is_digit c = true -> plain_char c = true.
Proof. by_ascii_cases c. Qed.

Lemma all_chars_take_drop (p : ascii -> bool) (n : nat) (s : string) :
  all_chars p s = true -> all_chars p (take n s) = true /\ all_chars p (drop n s) = true.
Proof.
  intros H. rewrite <- (take_drop n s), all_chars_append in H. now apply andb_prop in H.
Qed.

Lemma decimal_digits_plain (n : Z) : all_chars plain_char (decimal_digits n) = true.
Proof.
  apply (all_chars_weaken is_digit); [exact digit_plain|].
  unfold decimal_digits. now destruct (string_of_uint_spec (N.to_uint (Z.to_N n))).
Qed.

Lemma zeros_plain (n : nat) : all_chars plain_char (zeros n) = true.
Proof. induction n as [|n IH]; simpl; auto. Qed.

Lemma positive_to_string_plain (m : positive) (e : Z) :
  all_chars plain_char (positive_to_string m e) = true.
Proof.
  unfold positive_to_string.
  pose proof (shortest_from_digits 17 (S754_finite false m e) (fraction m e)
                (magnitude10 (fraction m e)) 1) as [Hall _].
  destruct (shortest_from 17 _ _ _ 1) as [ds n]. cbn [fst] in Hall.
  apply (all_chars_weaken _ _ _ digit_plain) in Hall.
  assert (Htail : forall ex, all_chars plain_char
            (String "e" (String (if ex <? 0 then "-"%char else "+"%char)
                           (decimal_digits (Z.abs ex)))) = true).
  { intros ex. cbn [all_chars]. rewrite decimal_digits_plain. now destruct (ex <? 0). }
  destruct ((-5 <=? n) && (n <=? 21)).
  - destruct (Z.of_nat (String.length ds) <=? n).
    { now rewrite all_chars_append, Hall, zeros_plain. }
    destruct (0 <? n).
    + destruct (all_chars_take_drop plain_char (Z.to_nat n) ds Hall) as [H1 H2].
      rewrite all_chars_append, H1. cbn [all_chars]. now rewrite H2.
    + cbn [all_chars]. now rewrite all_chars_append, zeros_plain, Hall.
  - destruct (Z.of_nat (String.length ds) =? 1).
    + now rewrite all_chars_append, Hall, Htail.
    + destruct (all_chars_take_drop plain_char 1 ds Hall) as [H1 H2].
      rewrite all_chars_append, H1. cbn [all_chars andb plain_char].
      now rewrite all_chars_append, H2, Htail.
Qed.

(** The text of a Number holds no comma, double quote or line break. *)
Lemma number_to_string_plain (x : number) :
  all_chars plain_char (number_to_string x) = true.
Proof.
  destruct x as [s|s| |s m e]; try reflexivity.
  - now destruct s.
  - unfold number_to_string. destruct s; [cbn [all_chars]|]; now rewrite positive_to_string_plain.
Qed.

Lemma plain_without (t : string) :
  all_chars plain_char t = true ->
  includes comma t = false /\ includes dquote t = false
  /\ includes LF t = false /\ includes CR t = false.
Proof.
  intros H. repeat split; now apply (includes_all_chars _ plain_char).
Qed.

Lemma number_to_string_not_empty (x : number) : number_to_string x <> EmptyString.
Proof.
  destruct x as [s|s| |s m e]; try discriminate.
  - now destruct s.
  - unfold number_to_string.
    destruct (positive_to_string_digits m e) as (c & r & -> & _). now destruct s.
Qed.

Lemma undouble_double_quotes (t : string) :
  undouble (double_quotes t +:+ String dquote EmptyString) = t.
Proof.
  induction t as [|a t IH]; [reflexivity|].
  cbn [double_quotes]. destruct (Ascii.eqb a dquote) eqn:Ha.
  - apply Ascii.eqb_eq in Ha as ->. rewrite !append_cons. cbn [undouble].
    rewrite Ascii.eqb_refl. now rewrite IH.
  - rewrite append_cons. cbn [undouble]. now rewrite Ha, IH.
Qed.

Lemma join_append (sep : string) (l1 l2 : list string) :
  l1 <> [] ->
  join sep (l1 ++ l2)
  = join sep l1 +:+ match l2 with
                    | [] => EmptyString
                    | _ => sep +:+ join sep l2
                    end.
Proof.
  intros Hne. induction l1 as [|x [|y l1] IH]; [contradiction| |].
  - destruct l2 as [|z l2]; [now rewrite append_empty_r | reflexivity].
  - change ((x :: y :: l1) ++ l2) with (x :: y :: (l1 ++ l2)).
    rewrite !join_cons. change (y :: l1 ++ l2) with ((y :: l1) ++ l2).
    rewrite IH by discriminate. now rewrite !append_assoc.
Qed.

End Cells.

(** X11: a numeric field is written as the text of the number, never
    between quotes, and that text holds no comma, double quote or line
    break: a number cannot break the document. *)
Theorem numeric_cell_is_plain (x : number) :
  cell (JNum x) = number_to_string x
  /\ all_chars plain_char (cell (JNum x)) = true
  /\ bare_line_break (field_text (JNum x)) = false.
Proof.
  pose proof (number_to_string_plain x) as Hplain.
  destruct (plain_without _ Hplain) as (Hcomma & Hquote & Hlf & Hcr).
  assert (Hcell : cell (JNum x) = number_to_string x).
  { unfold cell. cbn [String_]. now rewrite Hcomma, Hquote. }
  split; [exact Hcell|]. split; [now rewrite Hcell|].
  unfold bare_line_break. cbn [field_text String_]. now rewrite Hlf, Hcr.
Qed.

(** X12: a cell is empty exactly when the field is missing, [undefined],
    [null] or the empty string: the export does not tell these apart. *)
Theorem empty_cell_iff_absent (val : jsval) :
  cell val = EmptyString <-> val = JUndefined \/ val = JNull \/ val = JStr EmptyString.
Proof.
  split.
  - destruct val as [| |x|s]; auto.
    + intros H. exfalso. apply (number_to_string_not_empty x).
      pose proof (plain_without _ (number_to_string_plain x)) as (Hc & Hq & _).
      unfold cell in H. cbn [String_] in H. now rewrite Hc, Hq in H.
    + rewrite cell_escaped. cbn [field_text String_]. unfold escaped.
      destruct (includes comma s || includes dquote s); [discriminate|].
      intros ->. auto.
  - intros [->|[->| ->]]; reflexivity.
Qed.

(** X13: every cell can be read back: taking the quotes off and reading
    doubled quotes as one gives the text of the field, line breaks or
    not. *)
Theorem cell_reads_back (val : jsval) : unescaped (cell val) = field_text val.
Proof.
  rewrite cell_escaped. generalize (field_text val). intros t.
  unfold escaped. destruct (includes comma t || includes dquote t) eqn:Hq.
  - unfold unescaped. rewrite Ascii.eqb_refl. apply undouble_double_quotes.
  - apply orb_false_elim in Hq as [_ Hq].
    destruct t as [|c r]; [reflexivity|]. unfold unescaped.
    simpl in Hq. apply orb_false_elim in Hq as [-> _]. reflexivity.
Qed.

(** X15: records are written in order, one line after the other: more
    records only extend the text. *)
Theorem more_records_extend (data more : list record) :
  csvContent (data ++ more)
  = csvContent data
    +:+ match more with
        | [] => EmptyString
        | _ => String LF
                 (join (String LF EmptyString)
                    (List.map (fun row => join (String comma EmptyString)
                                 (List.map (fun h => cell (get row h)) headers)) more))
        end.
Proof.
  unfold csvContent. rewrite map_app, app_comm_cons, join_append by discriminate.
  now destruct more.
Qed.

(** X16: the columns of the export are the properties of the extraction
    schema, in the order the schema lists them, the required ones among
    them; what the page adds to a record, [id] and [rawText], is no
    column. *)
Theorem columns_are_schema_properties :
  List.map fst extractionSchema_properties = headers
  /\ (forall h, In h extractionSchema_required -> In h headers)
  /\ ~ In "id" headers /\ ~ In "rawText" headers.
Proof.
  split; [reflexivity|]. split.
  - intros h [<-|[<-|[]]]; cbn; tauto.
  - split; intros H; now apply headers_not_added in H as [? ?].
Qed.

(** * The exported text is always well formed *)

Section WellFormed.

Import Rfc4180.

(** Outside a quoted field, text without double quotes keeps the reader
    outside quoted fields. *)
Lemma read_unquoted_text (t : string) :
  includes dquote t = false ->
  forall st f fs rs rest,
    st <> Quoted -> st <> QuoteSeen ->
    exists st' f' fs' rs',
      st' <> Quoted /\ st' <> QuoteSeen
      /\ read st f fs rs (t +:+ rest) = read st' f' fs' rs' rest.
Proof.
  induction t as [|c t IH]; intros Hq st f fs rs rest H1 H2.
  - exists st, f, fs, rs. auto.
  - simpl in Hq. apply orb_false_elim in Hq as [Hc Hq].
    rewrite append_cons.
    assert (Hstep : exists st1 f1 fs1 rs1,
               st1 <> Quoted /\ st1 <> QuoteSeen
               /\ read st f fs rs (String c (t +:+ rest)) = read st1 f1 fs1 rs1 (t +:+ rest)).
    { destruct st; try contradiction; cbn [read]; rewrite Hc;
        destruct (Ascii.eqb c LF), (Ascii.eqb c comma), (Ascii.eqb c CR); cbn [andb];
        eexists _, _, _, _; (split; [|split; [|reflexivity]]); discriminate. }
    destruct Hstep as (st1 & f1 & fs1 & rs1 & Ha & Hb & ->).
    now apply IH.
Qed.

(** Any cell, read at the start of a field, leaves the reader where a
    comma, a line feed or the end of the text can follow. *)
Lemma read_any_cell (t : string) (st : state) (fs : list string)
    (rs : list (list string)) (rest : string) :
  st = RecordStart \/ st = FieldStart ->
  exists st' f' fs' rs',
    st' <> Quoted /\ read st EmptyString fs rs (escaped t +:+ rest) = read st' f' fs' rs' rest.
Proof.
  intros Hst. unfold escaped.
  destruct (includes comma t || includes dquote t) eqn:Hq.
  - exists QuoteSeen, t, fs, rs. split; [discriminate|].
    rewrite append_cons, append_assoc, append_cons, append_nil.
    assert (Hopen : forall u, read st EmptyString fs rs (String dquote u)
                              = read Quoted EmptyString fs rs u)
      by (intros u; now destruct Hst as [->| ->]).
    now rewrite Hopen, read_quoted.
  - apply orb_false_elim in Hq as [_ Hq].
    destruct (read_unquoted_text t Hq st EmptyString fs rs rest)
      as (st' & f' & fs' & rs' & H1 & _ & ->);
      [destruct Hst as [->| ->]; discriminate ..|].
    now exists st', f', fs', rs'.
Qed.

Lemma read_then_comma (st : state) (f : string) (fs : list string)
    (rs : list (list string)) (rest : string) :
  st <> Quoted ->
  exists fs', read st f fs rs (String comma rest) = read FieldStart EmptyString fs' rs rest.
Proof. intros H. exists (fs ++ [f]). now apply read_comma. Qed.

Lemma read_then_line_feed (st : state) (f : string) (fs : list string)
    (rs : list (list string)) (rest : string) :
  st <> Quoted ->
  exists rs', read st f fs rs (String LF rest) = read RecordStart EmptyString [] rs' rest.
Proof. intros H. destruct st; try contradiction; eexists; reflexivity. Qed.

Lemma read_then_end (st : state) (f : string) (fs : list string) (rs : list (list string)) :
  st <> Quoted -> exists rs', read st f fs rs EmptyString = Some rs'.
Proof. intros H. destruct st; try contradiction; eexists; reflexivity. Qed.

(** One line of cells, followed by a line feed or by the end of the text. *)
Lemma read_any_line (ts : list string) :
  forall t st fs rs,
    st = RecordStart \/ st = FieldStart ->
    (forall rest, exists rs',
        read st EmptyString fs rs
          (join (String comma EmptyString) (List.map escaped (t :: ts)) +:+ String LF rest)
        = read RecordStart EmptyString [] rs' rest)
    /\ (exists rs',
          read st EmptyString fs rs (join (String comma EmptyString) (List.map escaped (t :: ts)))
          = Some rs').
Proof.
  induction ts as [|t' ts IH]; intros t st fs rs Hst.
  - cbn [List.map join]. split.
    + intros rest.
      destruct (read_any_cell t st fs rs (String LF rest) Hst) as (st' & f' & fs' & rs' & H & ->).
      now apply read_then_line_feed.
    + destruct (read_any_cell t st fs rs EmptyString Hst) as (st' & f' & fs' & rs' & H & E).
      rewrite append_empty_r in E. rewrite E. now apply read_then_end.
  - change (List.map escaped (t :: t' :: ts)) with (escaped t :: escaped t' :: List.map escaped ts).
    rewrite join_cons.
    change (escaped t' :: List.map escaped ts) with (List.map escaped (t' :: ts)).
    assert (Hstep : forall rest, exists fs1 rs1,
               read st EmptyString fs rs (escaped t +:+ String comma rest)
               = read FieldStart EmptyString fs1 rs1 rest).
    { intros rest.
      destruct (read_any_cell t st fs rs (String comma rest) Hst) as (st' & f' & fs' & rs' & H & ->).
      destruct (read_then_comma st' f' fs' rs' rest H) as [fs1 ->]. eauto. }
    split.
    + intros rest. rewrite !append_assoc, append_cons, append_nil.
      destruct (Hstep (join (String comma EmptyString) (List.map escaped (t' :: ts))
                       +:+ String LF rest)) as (fs1 & rs1 & ->).
      apply (IH t' FieldStart fs1 rs1); now right.
    + rewrite append_cons, append_nil.
      destruct (Hstep (join (String comma EmptyString) (List.map escaped (t' :: ts))))
        as (fs1 & rs1 & ->).
      apply (IH t' FieldStart fs1 rs1); now right.
Qed.

Lemma read_any_lines (rows : list (list string)) :
  forall row rs,
    Forall (fun r => r <> []) (row :: rows) ->
    exists rs',
      read RecordStart EmptyString [] rs
        (join (String LF EmptyString)
           (List.map (fun r => join (String comma EmptyString) (List.map escaped r)) (row :: rows)))
      = Some rs'.
Proof.
  induction rows as [|row' rows IH]; intros row rs Hne.
  - apply Forall_inv in Hne. destruct row as [|t ts]; [contradiction|].
    cbn [List.map join]. apply (read_any_line ts t RecordStart [] rs). now left.
  - pose proof (Forall_inv Hne) as Hrow. apply Forall_inv_tail in Hne.
    destruct row as [|t ts]; [contradiction|].
    set (line := fun r => join (String comma EmptyString) (List.map escaped r)).
    change (List.map line ((t :: ts) :: row' :: rows))
      with (line (t :: ts) :: line row' :: List.map line rows).
    rewrite join_cons.
    change (line row' :: List.map line rows) with (List.map line (row' :: rows)).
    rewrite append_cons, append_nil. unfold line at 1.
    destruct (proj1 (read_any_line ts t RecordStart [] rs (or_introl eq_refl))
                (join (String LF EmptyString) (List.map line (row' :: rows)))) as [rs' ->].
    now apply IH.
Qed.

End WellFormed.

(** X14: whatever the records hold, the exported text is well formed: a
    reader for RFC 4180 never rejects it.  A bare line break can only
    make it find other records than were written. *)
Theorem export_always_parses (data : list record) :
  exists rows, Rfc4180.parse (csvContent data) = Some rows.
Proof.
  rewrite csvContent_table. unfold Rfc4180.parse, table.
  apply read_any_lines. constructor; [discriminate|].
  apply List.Forall_forall. intros r (row & <- & _)%in_map_iff. discriminate.
Qed.
